(** * SkillScroll: the content-based recommender of [app.py]

    A shallow embedding of [build_recommendations] (app.py, lines 134-174)
    and of the feed branch that calls it (lines 203-208), together with the
    pandas, numpy and scikit-learn operations the function is written with.

    - The tabular data ([videos], [progress]) is modelled as pandas has it: a
      frame is a list of column names and a list of labelled rows.
    - The text side of [TfidfVectorizer] (lower-casing, the default token
      pattern, the sorted vocabulary, the term counts, the error on an empty
      vocabulary) is modelled concretely.
    - The floating-point side ([TfidfTransformer] weighting, [mean],
      [cosine_similarity]) is an interface, class [Numeric]: the function is
      verified for every implementation of it.  What scikit-learn's
      [cosine_similarity] does with its arguments (the checks, the rows
      divided by their norms, the rows of norm zero left alone) is modelled
      as [sk_cosine_similarity], over rational numbers.
    - [sort_values] follows pandas' [nargsort]; the underlying numpy
      [argsort] (kind "quicksort", pandas' default) is an interface, class
      [Argsort], specified by what numpy documents for it: the result is a
      permutation of the positions that puts the keys in ascending order.
      Nothing is promised about equal keys.  numpy's quicksort itself, an
      introsort, is modelled as [npy_aquicksort]. *)

From Stdlib Require Import String Ascii.
From Stdlib Require Import List Bool Arith ZArith QArith Lia.
From Stdlib Require Import Permutation Sorted.
Import ListNotations.

Local Close Scope Q_scope.
Local Open Scope string_scope.
Local Open Scope list_scope.
Local Open Scope nat_scope.

(** ** Exceptions *)

Inductive exn : Type :=
| ValueError (msg : string)
| IndexError (msg : string).

Inductive result (A : Type) : Type :=
| Ok (a : A)
| Raise (e : exn).

Arguments Ok {A} a.
Arguments Raise {A} e.

Definition bind {A B : Type} (r : result A) (k : A -> result B) : result B :=
  match r with
  | Ok a => k a
  | Raise e => Raise e
  end.

Notation "x <- r ;; k" := (bind r (fun x => k))
  (at level 61, r at next level, right associativity).

(** ** float64 values

    A similarity is a float64.  Only its comparisons matter to the
    function ([> 0] and the sort order), and for those a float64 is either
    NaN or a rational number. *)

Inductive float64 : Type :=
| NaN
| Fin (q : Q).

Definition isna (x : float64) : bool :=
  match x with NaN => true | Fin _ => false end.

(** The numeric value of a float64 that is not NaN. *)
Definition value (x : float64) : Q :=
  match x with NaN => 0%Q | Fin q => q end.

Definition Qlt_bool (x y : Q) : bool := negb (Qle_bool y x).

(** [x > 0] as numpy evaluates it: false on NaN. *)
Definition gt0 (x : float64) : bool :=
  match x with NaN => false | Fin q => Qlt_bool 0 q end.

Definition vector : Type := list float64.
Definition matrix : Type := list vector.

(** ** The tables *)

Module Videos.
(** One record of videos.csv; a missing cell (NaN, None) is [None]. *)
Record row : Type := mk {
  video_id : string;
  title : option string;
  topic : option string;
  concept_tags : option string;
  level : option string;
  course_id : option string;
  url : option string;
  duration_sec : option Z
}.
End Videos.

Module Progress.
(** One record of progress.csv: a watch event. *)
Record row : Type := mk {
  user_id : string;
  course_id : option string;
  video_id : string;
  watched : Z
}.
End Progress.

(** A row of a frame over the videos table: its index label, the record, and
    the cell of the "similarity" column when the frame has that column. *)
Record Row : Type := mkRow {
  label : nat;
  video : Videos.row;
  similarity : option float64
}.

Record DataFrame : Type := mkFrame {
  columns : list string;
  rows : list Row
}.

Definition VIDEO_COLUMNS : list string :=
  ["video_id"; "title"; "topic"; "concept_tags"; "level";
   "course_id"; "url"; "duration_sec"].

Fixpoint range_rows (start : nat) (vs : list Videos.row) : list Row :=
  match vs with
  | [] => []
  | v :: vs' => mkRow start v None :: range_rows (S start) vs'
  end.

(** The frame [load_data] hands over for videos.csv: the eight columns and a
    RangeIndex, so that a row's label is its position. *)
Definition videos_frame (vs : list Videos.row) : DataFrame :=
  mkFrame VIDEO_COLUMNS (range_rows 0 vs).

(** [df.empty]: an axis of length 0. *)
Definition empty (df : DataFrame) : bool :=
  match rows df, columns df with
  | [], _ => true
  | _, [] => true
  | _, _ => false
  end.

Definition row_id (r : Row) : string := Videos.video_id (video r).

(** The key [sort_values("similarity")] and [df["similarity"] > 0] read. *)
Definition sim (r : Row) : float64 :=
  match similarity r with Some x => x | None => NaN end.

(** ** Series operations *)

(** [Series.unique()]: distinct values in order of first appearance. *)
Fixpoint unique (l : list string) : list string :=
  match l with
  | [] => []
  | x :: l' => x :: filter (fun y => negb (String.eqb x y)) (unique l')
  end.

(** [Series.isin(values)] on one cell. *)
Definition isin (x : string) (values : list string) : bool :=
  existsb (String.eqb x) values.

(** [s.fillna("")] on one cell. *)
Definition fillna (s : option string) : string :=
  match s with Some t => t | None => "" end.

(** ** CountVectorizer: the text side of TfidfVectorizer

    Defaults of scikit-learn: [lowercase=True], token pattern
    [(?u)\b\w\w+\b] (maximal runs of at least two word characters), no stop
    words, and a vocabulary sorted by term.  A string is a sequence of bytes
    here; the word characters are the ASCII letters, digits and underscore. *)

Definition is_word_char (c : ascii) : bool :=
  let n := nat_of_ascii c in
  ((48 <=? n) && (n <=? 57)) || ((65 <=? n) && (n <=? 90))
  || ((97 <=? n) && (n <=? 122)) || (n =? 95).

Definition lower (c : ascii) : ascii :=
  let n := nat_of_ascii c in
  if (65 <=? n) && (n <=? 90) then ascii_of_nat (n + 32) else c.

Fixpoint string_rev_app (cs : list ascii) (acc : string) : string :=
  match cs with
  | [] => acc
  | c :: cs' => string_rev_app cs' (String c acc)
  end.

(** A finished run of word characters (held in reverse) is a token when it
    has two characters or more. *)
Definition flush (cur : list ascii) : list string :=
  match cur with
  | _ :: _ :: _ => [string_rev_app cur ""]
  | _ => []
  end.

Fixpoint tokenize_from (s : string) (cur : list ascii) : list string :=
  match s with
  | EmptyString => flush cur
  | String c s' =>
      if is_word_char c then tokenize_from s' (lower c :: cur)
      else flush cur ++ tokenize_from s' []
  end.

Definition tokenize (doc : string) : list string := tokenize_from doc [].

Fixpoint insert_term (t : string) (vocab : list string) : list string :=
  match vocab with
  | [] => [t]
  | u :: vocab' =>
      match String.compare t u with
      | Lt => t :: vocab
      | Eq => vocab
      | Gt => u :: insert_term t vocab'
      end
  end.

Definition vocabulary (docs : list (list string)) : list string :=
  fold_left (fun vocab t => insert_term t vocab) (concat docs) [].

Definition term_count (t : string) (doc : list string) : nat :=
  length (filter (String.eqb t) doc).

Definition count_matrix (vocab : list string) (docs : list (list string))
  : list (list nat) :=
  map (fun doc => map (fun t => term_count t doc) vocab) docs.

(** ** The numeric interface *)

Class Numeric : Type := {
  (** [TfidfTransformer]: idf weighting and l2 normalisation of the counts. *)
  tfidf_transform : list (list nat) -> matrix;
  tfidf_transform_rows :
    forall X, length (tfidf_transform X) = length X;
  (** [M.mean(axis=0)] followed by [np.asarray(...).reshape(1, -1)]. *)
  mean_axis0 : matrix -> vector;
  (** [cosine_similarity(p, M).ravel()]: one value per row of [M]. *)
  cosine_similarity : vector -> matrix -> list float64;
  cosine_similarity_shape :
    forall p M, length (cosine_similarity p M) = length M
}.

(** [np.argsort(keys, kind="quicksort")] on keys without NaN. *)
Class Argsort : Type := {
  argsort : list Q -> list nat;
  argsort_perm :
    forall ks, Permutation (argsort ks) (seq 0 (length ks));
  argsort_sorted :
    forall ks,
      StronglySorted (fun i j => (nth i ks 0 <= nth j ks 0)%Q) (argsort ks)
}.

Section Recommender.

Context {numeric : Numeric} {sorter : Argsort}.

(** [TfidfVectorizer().fit_transform(texts)]. *)
Definition fit_transform (texts : list string) : result matrix :=
  let docs := map tokenize texts in
  let vocab := vocabulary docs in
  match vocab with
  | [] => Raise (ValueError
            "empty vocabulary; perhaps the documents only contain stop words")
  | _ :: _ => Ok (tfidf_transform (count_matrix vocab docs))
  end.

(** [M[idx]] for a list of row positions. *)
Fixpoint take_rows (M : matrix) (idx : list nat) : result matrix :=
  match idx with
  | [] => Ok []
  | i :: idx' =>
      match nth_error M i with
      | None => Raise (IndexError "row index out of range")
      | Some v => vs <- take_rows M idx' ;; Ok (v :: vs)
      end
  end.

(** [df["similarity"] = sims] for [sims] as long as the frame. *)
Definition add_column (cols : list string) (c : string) : list string :=
  if existsb (String.eqb c) cols then cols else cols ++ [c].

Definition set_similarity (df : DataFrame) (sims : list float64)
  : DataFrame :=
  mkFrame (add_column (columns df) "similarity")
          (map (fun rs => mkRow (label (fst rs)) (video (fst rs))
                                (Some (snd rs)))
               (combine (rows df) sims)).

(** [df[mask]] for a mask computed row by row. *)
Definition select (p : Row -> bool) (df : DataFrame) : DataFrame :=
  mkFrame (columns df) (filter p (rows df)).

(** pandas' [nargsort(items, kind="quicksort", ascending=False,
    na_position="last")]: the non-NaN keys and their positions are
    reversed, sorted ascending, and the result reversed again; the
    positions of the NaN keys come last. *)
Definition nargsort_desc (items : list float64) : list nat :=
  let idx := seq 0 (length items) in
  let non_nan_idx := filter (fun i => negb (isna (nth i items NaN))) idx in
  let nan_idx := filter (fun i => isna (nth i items NaN)) idx in
  let non_nans := map (fun i => value (nth i items NaN)) non_nan_idx in
  let non_nans := rev non_nans in
  let non_nan_idx := rev non_nan_idx in
  let indexer := map (fun k => nth k non_nan_idx 0) (argsort non_nans) in
  let indexer := rev indexer in
  indexer ++ nan_idx.

Definition blank_row : Row :=
  mkRow 0 (Videos.mk "" None None None None None None None) None.

(** [df.take(indexer)]; the positions of [nargsort_desc] are all below
    the length of the frame. *)
Definition take (df : DataFrame) (indexer : list nat) : DataFrame :=
  mkFrame (columns df) (map (fun i => nth i (rows df) blank_row) indexer).

(** [df.sort_values("similarity", ascending=False)]. *)
Definition sort_values_desc (df : DataFrame) : DataFrame :=
  take df (nargsort_desc (map sim (rows df))).

(** [df.head(n)]: the first [n] rows, all but the last [-n] for [n < 0]. *)
Definition head (n : Z) (df : DataFrame) : DataFrame :=
  let k := if (0 <=? n)%Z then Z.to_nat n
           else (length (rows df) - Z.to_nat (- n))%nat in
  mkFrame (columns df) (firstn k (rows df)).

(** The text of one video (lines 138-142). *)
Definition text_of (r : Row) : string :=
  (fillna (Videos.title (video r)) ++ " " ++
   fillna (Videos.topic (video r)) ++ " " ++
   fillna (Videos.concept_tags (video r)))%string.

(** Lines 147-149 and 154: the user's distinct watched ids. *)
Definition user_watched (progress : list Progress.row) (user_id : string)
  : list Progress.row :=
  filter (fun p => String.eqb (Progress.user_id p) user_id
                   && (Progress.watched p =? 1)%Z) progress.

Definition watched_ids (progress : list Progress.row) (user_id : string)
  : list string :=
  unique (map Progress.video_id (user_watched progress user_id)).

(** Line 155: the index labels of the watched videos of the catalog. *)
Definition watched_idx (videos : DataFrame) (ids : list string)
  : list nat :=
  map label (filter (fun r => isin (row_id r) ids) (rows videos)).

(** Lines 160-167: the catalog with its similarity column. *)
Definition scored (videos : DataFrame) (tfidf_matrix : matrix)
  (idx : list nat) : result DataFrame :=
  watched_vectors <- take_rows tfidf_matrix idx ;;
  let user_profile_vec := mean_axis0 watched_vectors in
  let sims := cosine_similarity user_profile_vec tfidf_matrix in
  Ok (set_similarity videos sims).

(** Lines 169-170: the unwatched videos of positive similarity. *)
Definition eligible (ids : list string) (videos_copy : DataFrame)
  : DataFrame :=
  select (fun r => gt0 (sim r))
         (select (fun r => negb (isin (row_id r) ids)) videos_copy).

Definition build_recommendations (videos : DataFrame)
  (progress : list Progress.row) (user_id : string) (top_n : Z)
  : result DataFrame :=
  if empty videos then Ok videos
  else
    tfidf_matrix <- fit_transform (map text_of (rows videos)) ;;
    if length (watched_ids progress user_id) <? 2 then Ok videos
    else
      let ids := watched_ids progress user_id in
      match watched_idx videos ids with
      | [] => Ok videos
      | idx =>
          videos_copy <- scored videos tfidf_matrix idx ;;
          let videos_copy := eligible ids videos_copy in
          let videos_copy := sort_values_desc videos_copy in
          Ok (head top_n videos_copy)
      end.

(** Lines 203-206: the "Recommended For You (ML)" feed. *)
Definition recommended_feed (videos : DataFrame)
  (progress : list Progress.row) (user_id : string) : result DataFrame :=
  feed <- build_recommendations videos progress user_id 20 ;;
  Ok (if empty feed then videos else feed).

End Recommender.

(** ** Vocabulary of the statements

    Names for the parts of a run that the theorems speak about. *)

(** Descending order of similarity. *)
Definition sim_ge (r1 r2 : Row) : Prop :=
  (value (sim r2) <= value (sim r1))%Q.


(** The user's distinct watched-id set, as the specification words it: the
    ids with at least one watched=1 event of that user. *)
Definition has_watched (progress : list Progress.row) (user_id : string)
  (id : string) : Prop :=
  exists e, In e progress /\ Progress.user_id e = user_id /\
            Progress.watched e = 1%Z /\ Progress.video_id e = id.

(** The watched ids that are in the catalog ("valid" in the specification). *)
Definition valid_ids (vs : list Videos.row) (ids : list string)
  : list string :=
  filter (fun id => isin id (map Videos.video_id vs)) ids.





(** The ranked frame with no row. *)
Definition empty_ranked : DataFrame :=
  mkFrame (VIDEO_COLUMNS ++ ["similarity"]) [].


(** [a] comes before [b] in [l]. *)
Definition precedes {A : Type} (a b : A) (l : list A) : Prop :=
  exists l1 l2 l3, l = l1 ++ a :: l2 ++ b :: l3.

(** The tie-break of the specification: of two returned reels with equal
    similarity, the one earlier in the catalog comes first. *)
Definition ties_in_catalog_order (df : DataFrame) : Prop :=
  forall a b,
    In a (rows df) -> In b (rows df) ->
    (value (sim a) == value (sim b))%Q -> label a < label b ->
    precedes a b (rows df).

Section Runs.

Context {numeric : Numeric} {sorter : Argsort}.

(** The similarities line 164 computes, for a frame whose labels are
    positions. *)
Definition scores (videos : DataFrame) (M : matrix) (ids : list string)
  : list float64 :=
  cosine_similarity
    (mean_axis0 (map (fun i => nth i M []) (watched_idx videos ids))) M.

(** The three returns of [videos] (lines 136, 152 and 158) are reached:
    on an empty frame, or once the vectorizer has returned, on fewer
    than two distinct watched ids or on no watched id in the catalog. *)
Definition fallback_path (videos : DataFrame)
  (progress : list Progress.row) (user_id : string) : Prop :=
  empty videos = true \/
  ((exists M, fit_transform (map text_of (rows videos)) = Ok M) /\
   (length (watched_ids progress user_id) < 2 \/
    watched_idx videos (watched_ids progress user_id) = [])).

(** Lines 160-174 are reached. *)
Definition ranked_path (videos : DataFrame)
  (progress : list Progress.row) (user_id : string) (M : matrix) : Prop :=
  empty videos = false /\
  fit_transform (map text_of (rows videos)) = Ok M /\
  2 <= length (watched_ids progress user_id) /\
  watched_idx videos (watched_ids progress user_id) <> [].

(** What lines 169-170 leave: the eligible candidates, in catalog order. *)
Definition candidates (videos : DataFrame) (progress : list Progress.row)
  (user_id : string) (M : matrix) : DataFrame :=
  let ids := watched_ids progress user_id in
  eligible ids (set_similarity videos (scores videos M ids)).

(** What line 172 hands to [head]. *)
Definition ranking (videos : DataFrame) (progress : list Progress.row)
  (user_id : string) (M : matrix) : DataFrame :=
  sort_values_desc (candidates videos progress user_id M).

End Runs.


(** ** Reference implementations of the two interfaces

    They make the model executable.  [insertion_argsort] is an insertion
    sort of the (key, position) pairs; its flag says where a key goes among
    equal keys, so that both a stable and a non-stable member of [Argsort]
    are at hand.  [overlap_numeric] takes the raw term counts as weights and
    the plain dot product with the mean profile as similarity. *)

Definition key_before (strict : bool) (a b : Q) : bool :=
  if strict then Qlt_bool a b else Qle_bool a b.

Fixpoint insert_key (strict : bool) (x : Q * nat) (l : list (Q * nat))
  : list (Q * nat) :=
  match l with
  | [] => [x]
  | y :: l' =>
      if key_before strict (fst x) (fst y) then x :: l
      else y :: insert_key strict x l'
  end.

Definition isort (strict : bool) (l : list (Q * nat)) : list (Q * nat) :=
  fold_right (insert_key strict) [] l.

Definition insertion_argsort (strict : bool) (ks : list Q) : list nat :=
  map snd (isort strict (combine ks (seq 0 (length ks)))).

(** Ascending order of the keys of (key, position) pairs. *)
Definition key_le (p q : Q * nat) : Prop := (fst p <= fst q)%Q.

Definition fadd (x y : float64) : float64 :=
  match x, y with
  | Fin a, Fin b => Fin (Qred (a + b))
  | _, _ => NaN
  end.

Definition fmul (x y : float64) : float64 :=
  match x, y with
  | Fin a, Fin b => Fin (Qred (a * b))
  | _, _ => NaN
  end.

Fixpoint vadd (u v : vector) : vector :=
  match u, v with
  | x :: u', y :: v' => fadd x y :: vadd u' v'
  | _, _ => []
  end.

Fixpoint dot (u v : vector) : float64 :=
  match u, v with
  | x :: u', y :: v' => fadd (fmul x y) (dot u' v')
  | _, _ => Fin 0
  end.

Definition of_count (c : nat) : float64 := Fin (inject_Z (Z.of_nat c)).

Definition overlap_mean (M : matrix) : vector :=
  match M with
  | [] => []
  | v :: M' =>
      map (fun x => fmul x (Fin (1 # Pos.of_nat (length M))))
          (fold_left vadd M' v)
  end.

(** ** numpy's quicksort

    [np.argsort(keys, kind="quicksort")] for keys without NaN, as numpy has
    it in npysort/quicksort.cpp ([aquicksort_]) and heapsort.cpp
    ([aheapsort_]): an introsort on the array [tosort] of positions.  A
    segment of more than 17 positions is partitioned around the median of
    its first, middle and last key; a smaller one is sorted by insertion;
    a segment taken from the stack once the depth limit is used up is
    sorted by heapsort.  Only the insertion sort keeps equal keys in their
    order, and numpy documents the kind as not stable.  A segment
    [pl .. pr] of [tosort] is a list here, and a pointer into it a position
    of the list. *)

Fixpoint set_nth (k : nat) (x : nat) (a : list nat) : list nat :=
  match a, k with
  | [], _ => []
  | _ :: a', 0 => x :: a'
  | y :: a', S k' => y :: set_nth k' x a'
  end.

(** [INTP_SWAP(a[i], a[j])]. *)
Definition swap (i j : nat) (a : list nat) : list nat :=
  set_nth j (nth i a 0) (set_nth i (nth j a 0) a).

Definition SMALL_QUICKSORT : nat := 16.

Section Quicksort.

(** The keys [v]; the sort moves positions of [v] only. *)
Variable v : list Q.

(** [Tag::less(v[i], v[j])]. *)
Definition less (i j : nat) : bool := Qlt_bool (nth i v 0%Q) (nth j v 0%Q).

(** [do { ++pi; } while (less(v[*pi], vp))], entered after the increment;
    [vp] is named by the position it was read from. *)
Fixpoint scan_up (fuel : nat) (a : list nat) (vp pi : nat) : nat :=
  match fuel with
  | 0 => pi
  | S fuel' =>
      if less (nth pi a 0) vp then scan_up fuel' a vp (S pi) else pi
  end.

(** [do { --pj; } while (less(vp, v[*pj]))], entered after the decrement. *)
Fixpoint scan_down (fuel : nat) (a : list nat) (vp pj : nat) : nat :=
  match fuel with
  | 0 => pj
  | S fuel' =>
      if less vp (nth pj a 0) then scan_down fuel' a vp (pj - 1) else pj
  end.

(** The [for (;;)] loop of the partition; returns the array and [pi]. *)
Fixpoint exchange (fuel : nat) (a : list nat) (vp pi pj : nat)
  : list nat * nat :=
  match fuel with
  | 0 => (a, pi)
  | S fuel' =>
      let pi := scan_up (length a) a vp (S pi) in
      let pj := scan_down (length a) a vp (pj - 1) in
      if pj <=? pi then (a, pi)
      else exchange fuel' (swap pi pj a) vp pi pj
  end.

(** One partition of a segment: median of three, the pivot parked at
    [pr - 1], the exchanges, the pivot put in its place [pi]. *)
Definition partition (a : list nat) : list nat * nat :=
  let pr := length a - 1 in
  let pm := pr / 2 in
  let a := if less (nth pm a 0) (nth 0 a 0) then swap pm 0 a else a in
  let a := if less (nth pr a 0) (nth pm a 0) then swap pr pm a else a in
  let a := if less (nth pm a 0) (nth 0 a 0) then swap pm 0 a else a in
  let vp := nth pm a 0 in
  let a := swap pm (pr - 1) a in
  let '(a, pi) := exchange (length a) a vp 0 (pr - 1) in
  (swap pi (pr - 1) a, pi).

(** The insertion sort of a small segment.  The sorted part is held with
    its last position first; [vi] passes the positions of greater key. *)
Fixpoint insert_back (vi : nat) (sorted : list nat) : list nat :=
  match sorted with
  | [] => [vi]
  | k :: rest =>
      if less vi k then k :: insert_back vi rest else vi :: sorted
  end.

Definition insertion_sort (a : list nat) : list nat :=
  rev (fold_left (fun sorted vi => insert_back vi sorted) a []).

(** The inner loop of [aheapsort_], on the array counted from 1: [tmp]
    sinks from [i], [j] being the child looked at, in a heap of [n]. *)
Fixpoint sift (fuel : nat) (a : list nat) (tmp i j n : nat) : list nat :=
  match fuel with
  | 0 => set_nth (i - 1) tmp a
  | S fuel' =>
      if j <=? n then
        let j := if (j <? n) && less (nth (j - 1) a 0) (nth j a 0)
                 then j + 1 else j in
        if less tmp (nth (j - 1) a 0)
        then sift fuel' (set_nth (i - 1) (nth (j - 1) a 0) a) tmp j (j + j) n
        else set_nth (i - 1) tmp a
      else set_nth (i - 1) tmp a
  end.

(** [for (l = n >> 1; l > 0; --l)]. *)
Fixpoint build_heap (l : nat) (a : list nat) (n : nat) : list nat :=
  match l with
  | 0 => a
  | S l' => build_heap l' (sift n a (nth l' a 0) l (l + l) n) n
  end.

(** [for (; n > 1;)]. *)
Fixpoint pop_heap (fuel : nat) (a : list nat) (n : nat) : list nat :=
  match fuel with
  | 0 => a
  | S fuel' =>
      if 1 <? n then
        let tmp := nth (n - 1) a 0 in
        let a := set_nth (n - 1) (nth 0 a 0) a in
        let n := n - 1 in
        pop_heap fuel' (sift n a tmp 1 2 n) n
      else a
  end.

Definition aheapsort (a : list nat) : list nat :=
  let n := length a in
  pop_heap n (build_heap (n / 2) a n) n.

(** The sort of one segment.  After a partition the larger side goes on
    the stack with the depth left, and is tested against the depth limit
    when it is taken from the stack ([popped]); the smaller side is gone on
    with at once.  The two sides do not overlap, so that the order in which
    they are sorted does not show in the result. *)
Fixpoint aquicksort_from (fuel : nat) (popped : bool) (cdepth : Z)
  (a : list nat) : list nat :=
  match fuel with
  | 0 => a
  | S fuel' =>
      if popped && (cdepth <? 0)%Z then aheapsort a
      else if SMALL_QUICKSORT <? length a - 1 then
        let '(a, pi) := partition a in
        let cdepth := (cdepth - 1)%Z in
        let right_on_stack := pi <? length a - 1 - pi in
        aquicksort_from fuel' (negb right_on_stack) cdepth (firstn pi a)
        ++ nth pi a 0
        :: aquicksort_from fuel' right_on_stack cdepth (skipn (S pi) a)
      else insertion_sort a
  end.

End Quicksort.

(** [aquicksort_(v, tosort, num)] with [tosort] holding 0 .. num-1; the
    depth limit is twice the position of the highest bit of [num]. *)
Definition npy_aquicksort (v : list Q) : list nat :=
  let num := length v in
  aquicksort_from v (S num) true (2 * Z.of_nat (Nat.log2 num)) (seq 0 num).

(** The two laws of [Argsort], as a test on a result. *)
Fixpoint ascending (ks : list Q) (r : list nat) : bool :=
  match r with
  | i :: (j :: _) as r' =>
      Qle_bool (nth i ks 0%Q) (nth j ks 0%Q) && ascending ks r'
  | _ => true
  end.

Definition is_argsort (ks : list Q) (r : list nat) : bool :=
  (length r =? length ks)
  && forallb (fun i => existsb (Nat.eqb i) r) (seq 0 (length ks))
  && ascending ks r.

(** numpy's quicksort as a member of [Argsort].  The result of
    [npy_aquicksort] is handed on once it has passed [is_argsort], which
    the result of a sort does; this gives the two laws without a proof
    about the partition and the heap. *)
Definition quicksort_argsort (ks : list Q) : list nat :=
  let r := npy_aquicksort ks in
  if is_argsort ks r then r else insertion_argsort false ks.

(** ** scikit-learn's cosine similarity

    [cosine_similarity(X, Y)] for a single row [X]: both arguments are
    checked ([check_pairwise_arrays]: ValueError on NaN, on an empty
    axis and on rows of another length than [X]), every row is divided by
    its Euclidean norm, a row of norm zero being left as it is
    ([normalize]), and the result holds the dot products.  The arithmetic
    is exact here but for the square root, which is cut after 52 binary
    places.  (Recent versions also leave alone a dense row whose norm is
    below ten machine epsilons; the profile of line 161, a mean of rows of
    norm 1 or 0, has no such norm.) *)

Definition Qsqrt (q : Q) : Q :=
  Z.sqrt (Qnum q * 2 ^ 104 / Zpos (Qden q)) # (2 ^ 52).

Definition sum_squares (v : list Q) : Q :=
  fold_right (fun x acc => x * x + acc)%Q 0%Q v.

Definition l2_normalize (v : list Q) : list Q :=
  let s := sum_squares v in
  if Qeq_bool s 0 then v else map (fun x => Qred (x / Qsqrt s)%Q) v.

Fixpoint Qdot (u v : list Q) : Q :=
  match u, v with
  | x :: u', y :: v' => (x * y + Qdot u' v')%Q
  | _, _ => 0%Q
  end.

(** The numbers of a row, unless one of its cells is NaN. *)
Fixpoint numbers (v : vector) : option (list Q) :=
  match v with
  | [] => Some []
  | NaN :: _ => None
  | Fin q :: v' => option_map (cons q) (numbers v')
  end.

Fixpoint all_numbers (M : matrix) : option (list (list Q)) :=
  match M with
  | [] => Some []
  | v :: M' =>
      match numbers v, all_numbers M' with
      | Some qs, Some rest => Some (qs :: rest)
      | _, _ => None
      end
  end.

Definition sk_cosine_similarity (X : vector) (Y : matrix)
  : result (list float64) :=
  match numbers X, all_numbers Y with
  | Some x, Some y =>
      if (length x =? 0) || (length y =? 0) then
        Raise (ValueError "Found array with 0 feature(s) or 0 sample(s)")
      else if negb (forallb (fun v => length v =? length x) y) then
        Raise (ValueError "Incompatible dimension for X and Y matrices")
      else
        Ok (map (fun v => Fin (Qred (Qdot (l2_normalize x)
                                          (l2_normalize v)))) y)
  | _, _ => Raise (ValueError "Input contains NaN")
  end.

(** [cosine_similarity] where it returns; NaN stands in for a call that
    raises, which the weights below never cause. *)
Definition cosine_or_nan (X : vector) (Y : matrix) : list float64 :=
  match sk_cosine_similarity X Y with
  | Ok sims => sims
  | Raise _ => map (fun _ => NaN) Y
  end.

(** [TfidfTransformer] with every idf weight at 1: the term counts of a
    row, divided by their Euclidean norm. *)
Definition l2_rows (X : list (list nat)) : matrix :=
  map (fun row => map Fin (l2_normalize
                             (map (fun c => inject_Z (Z.of_nat c)) row))) X.





(** * Facts about lists used throughout *)

Section ListFacts.

Context {A B : Type}.

Lemma StronglySorted_map_In (R : A -> A -> Prop) (R' : B -> B -> Prop)
  (f : A -> B) (l : list A) :
  (forall x y, In x l -> In y l -> R x y -> R' (f x) (f y)) ->
  StronglySorted R l -> StronglySorted R' (map f l).
Proof.
  intros Hf Hs. induction Hs as [| a l Hs IH Hall]; simpl.
  - constructor.
  - constructor.
    + apply IH. intros x y Hx Hy. apply Hf; now right.
    + rewrite Forall_forall in *. intros b Hb.
      apply in_map_iff in Hb. destruct Hb as [x [<- Hx]].
      apply Hf; [now left | now right | now apply Hall].
Qed.

Lemma StronglySorted_app_inv (R : A -> A -> Prop) (l1 l2 : list A) :
  StronglySorted R (l1 ++ l2) ->
  StronglySorted R l1 /\ StronglySorted R l2 /\
  (forall x y, In x l1 -> In y l2 -> R x y).
Proof.
  induction l1 as [| a l1 IH]; simpl; intros Hs.
  - repeat split; [constructor | assumption | intros x y []].
  - apply StronglySorted_inv in Hs. destruct Hs as [Hs Hall].
    destruct (IH Hs) as [H1 [H2 H12]].
    rewrite Forall_forall in Hall.
    repeat split.
    + constructor; [assumption |].
      rewrite Forall_forall. intros x Hx. apply Hall, in_or_app. now left.
    + assumption.
    + intros x y [<- | Hx] Hy.
      * apply Hall, in_or_app. now right.
      * now apply H12.
Qed.

Lemma StronglySorted_app (R : A -> A -> Prop) (l1 l2 : list A) :
  StronglySorted R l1 -> StronglySorted R l2 ->
  (forall x y, In x l1 -> In y l2 -> R x y) ->
  StronglySorted R (l1 ++ l2).
Proof.
  intros H1 H2 H12. induction H1 as [| a l1 H1 IH Hall]; simpl;
    [assumption |].
  constructor.
  - apply IH. intros x y Hx. apply H12. now right.
  - rewrite Forall_forall in *. intros y Hy.
    apply in_app_or in Hy. destruct Hy as [Hy | Hy].
    + now apply Hall.
    + apply H12; [now left | assumption].
Qed.

Lemma StronglySorted_rev (R : A -> A -> Prop) (l : list A) :
  StronglySorted R l -> StronglySorted (fun x y => R y x) (rev l).
Proof.
  induction 1 as [| a l Hs IH Hall]; simpl; [constructor |].
  apply StronglySorted_app; [assumption | repeat constructor |].
  rewrite Forall_forall in Hall.
  intros x y Hx [<- | []]. apply Hall. now apply in_rev.
Qed.

Lemma StronglySorted_firstn (R : A -> A -> Prop) (n : nat) (l : list A) :
  StronglySorted R l -> StronglySorted R (firstn n l).
Proof.
  intros Hs. rewrite <- (firstn_skipn n l) in Hs.
  now apply StronglySorted_app_inv in Hs.
Qed.

Lemma map_snd_combine (l : list A) (l' : list B) :
  length l = length l' -> map snd (combine l l') = l'.
Proof.
  revert l'. induction l as [| a l IH]; intros [| b l']; simpl;
    intros H; try discriminate; [reflexivity |].
  f_equal. apply IH. now injection H.
Qed.

(** Reading a list at a permutation of its positions permutes it. *)
Lemma map_nth_seq (l : list A) (d : A) :
  map (fun i => nth i l d) (seq 0 (length l)) = l.
Proof.
  induction l as [| a l IH]; simpl; [reflexivity |].
  f_equal. rewrite <- seq_shift, map_map. exact IH.
Qed.

Lemma take_Permutation (l : list A) (d : A) (p : list nat) :
  Permutation p (seq 0 (length l)) ->
  Permutation (map (fun i => nth i l d) p) l.
Proof.
  intros Hp.
  transitivity (map (fun i => nth i l d) (seq 0 (length l))).
  - now apply Permutation_map.
  - now rewrite map_nth_seq.
Qed.

End ListFacts.

(** * The reference implementations meet their interfaces *)

Lemma key_before_le (strict : bool) (a b : Q) :
  key_before strict a b = true -> (a <= b)%Q.
Proof.
  unfold key_before, Qlt_bool. destruct strict; intros H.
  - apply negb_true_iff in H.
    destruct (Qlt_le_dec a b) as [Hlt | Hle]; [now apply Qlt_le_weak |].
    apply Qle_bool_iff in Hle. congruence.
  - now apply Qle_bool_iff.
Qed.

Lemma key_before_false (strict : bool) (a b : Q) :
  key_before strict a b = false -> (b <= a)%Q.
Proof.
  unfold key_before, Qlt_bool. destruct strict; intros H.
  - apply negb_false_iff in H. now apply Qle_bool_iff.
  - destruct (Qlt_le_dec b a) as [Hlt | Hle]; [now apply Qlt_le_weak |].
    apply Qle_bool_iff in Hle. congruence.
Qed.

Lemma insert_key_perm (strict : bool) (x : Q * nat) (l : list (Q * nat)) :
  Permutation (insert_key strict x l) (x :: l).
Proof.
  induction l as [| y l IH]; simpl; [reflexivity |].
  destruct (key_before strict (fst x) (fst y)); [reflexivity |].
  rewrite IH. apply perm_swap.
Qed.

Lemma isort_perm (strict : bool) (l : list (Q * nat)) :
  Permutation (isort strict l) l.
Proof.
  induction l as [| x l IH]; simpl; [reflexivity |].
  rewrite insert_key_perm. now apply perm_skip.
Qed.

Lemma insert_key_sorted (strict : bool) (x : Q * nat) (l : list (Q * nat)) :
  StronglySorted key_le l -> StronglySorted key_le (insert_key strict x l).
Proof.
  induction 1 as [| y l Hs IH Hall]; simpl.
  - repeat constructor.
  - destruct (key_before strict (fst x) (fst y)) eqn:E.
    + apply key_before_le in E.
      constructor; [now constructor |].
      constructor; [exact E |].
      rewrite Forall_forall in *. intros z Hz.
      unfold key_le in *. eapply Qle_trans; [exact E | now apply Hall].
    + apply key_before_false in E.
      constructor; [exact IH |].
      rewrite Forall_forall in *. intros z Hz.
      apply (Permutation_in _ (insert_key_perm strict x l)) in Hz.
      destruct Hz as [<- | Hz]; [exact E | now apply Hall].
Qed.

Lemma isort_sorted (strict : bool) (l : list (Q * nat)) :
  StronglySorted key_le (isort strict l).
Proof.
  induction l as [| x l IH]; simpl; [constructor |].
  now apply insert_key_sorted.
Qed.

Lemma In_combine_seq (ks : list Q) (a : nat) (k : Q) (i : nat) :
  In (k, i) (combine ks (seq a (length ks))) ->
  a <= i /\ nth (i - a) ks 0%Q = k.
Proof.
  revert a. induction ks as [| k0 ks IH]; simpl; intros a; [intros [] |].
  intros [H | H].
  - injection H as -> ->. rewrite Nat.sub_diag. split; [lia | reflexivity].
  - apply IH in H. destruct H as [Hle Hn]. split; [lia |].
    replace (i - a) with (S (i - S a)) by lia. exact Hn.
Qed.

Lemma insertion_argsort_perm (strict : bool) (ks : list Q) :
  Permutation (insertion_argsort strict ks) (seq 0 (length ks)).
Proof.
  unfold insertion_argsort.
  rewrite (isort_perm strict), map_snd_combine; [reflexivity |].
  now rewrite length_seq.
Qed.

Lemma insertion_argsort_sorted (strict : bool) (ks : list Q) :
  StronglySorted (fun i j => (nth i ks 0 <= nth j ks 0)%Q)
                 (insertion_argsort strict ks).
Proof.
  unfold insertion_argsort.
  apply StronglySorted_map_In with (R := key_le); [| apply isort_sorted].
  intros [k i] [k' i'] Hx Hy Hle.
  apply (Permutation_in _ (isort_perm strict _)) in Hx, Hy.
  apply In_combine_seq in Hx, Hy. simpl.
  destruct Hx as [_ <-], Hy as [_ <-]. rewrite !Nat.sub_0_r in Hle.
  exact Hle.
Qed.

(** The stable member: among equal keys the earlier position comes first. *)
Definition stable_argsort : Argsort := {|
  argsort := insertion_argsort false;
  argsort_perm := insertion_argsort_perm false;
  argsort_sorted := insertion_argsort_sorted false
|}.

(** A non-stable member: among equal keys the later position comes first. *)
Definition unstable_argsort : Argsort := {|
  argsort := insertion_argsort true;
  argsort_perm := insertion_argsort_perm true;
  argsort_sorted := insertion_argsort_sorted true
|}.

Definition overlap_numeric : Numeric := {|
  tfidf_transform := map (map of_count);
  tfidf_transform_rows := fun X => length_map (map of_count) X;
  mean_axis0 := overlap_mean;
  cosine_similarity := fun p M => map (dot p) M;
  cosine_similarity_shape := fun p M => length_map (dot p) M
|}.

(** * numpy's quicksort and scikit-learn's cosine similarity *)

Lemma ascending_Sorted (ks : list Q) (r : list nat) :
  ascending ks r = true ->
  Sorted (fun i j => (nth i ks 0 <= nth j ks 0)%Q) r.
Proof.
  induction r as [| i r IH]; [constructor |].
  destruct r as [| j r]; [repeat constructor |].
  intros H. cbn [ascending] in H. apply andb_true_iff in H.
  destruct H as [Hle H]. constructor; [now apply IH |].
  constructor. now apply Qle_bool_iff.
Qed.

Lemma is_argsort_perm (ks : list Q) (r : list nat) :
  is_argsort ks r = true -> Permutation r (seq 0 (length ks)).
Proof.
  unfold is_argsort. rewrite !andb_true_iff. intros [[Hlen Hall] _].
  apply Nat.eqb_eq in Hlen. symmetry.
  apply NoDup_Permutation_bis; [apply seq_NoDup | rewrite length_seq; lia |].
  intros i Hi. rewrite forallb_forall in Hall. apply Hall in Hi.
  apply existsb_exists in Hi. destruct Hi as [j [Hj E]].
  apply Nat.eqb_eq in E. now subst.
Qed.

Lemma is_argsort_sorted (ks : list Q) (r : list nat) :
  is_argsort ks r = true ->
  StronglySorted (fun i j => (nth i ks 0 <= nth j ks 0)%Q) r.
Proof.
  unfold is_argsort. rewrite !andb_true_iff. intros [_ Hasc].
  apply Sorted_StronglySorted; [| now apply ascending_Sorted].
  intros i j k Hij Hjk. now apply (Qle_trans _ (nth j ks 0%Q)).
Qed.

Lemma quicksort_argsort_perm (ks : list Q) :
  Permutation (quicksort_argsort ks) (seq 0 (length ks)).
Proof.
  unfold quicksort_argsort.
  destruct (is_argsort ks (npy_aquicksort ks)) eqn:E;
    [now apply is_argsort_perm | apply insertion_argsort_perm].
Qed.

Lemma quicksort_argsort_sorted (ks : list Q) :
  StronglySorted (fun i j => (nth i ks 0 <= nth j ks 0)%Q)
                 (quicksort_argsort ks).
Proof.
  unfold quicksort_argsort.
  destruct (is_argsort ks (npy_aquicksort ks)) eqn:E;
    [now apply is_argsort_sorted | apply insertion_argsort_sorted].
Qed.

Definition numpy_argsort : Argsort := {|
  argsort := quicksort_argsort;
  argsort_perm := quicksort_argsort_perm;
  argsort_sorted := quicksort_argsort_sorted
|}.

Lemma all_numbers_length (M : matrix) (y : list (list Q)) :
  all_numbers M = Some y -> length y = length M.
Proof.
  revert y. induction M as [| v M IH]; simpl; intros y H.
  - now injection H as <-.
  - destruct (numbers v); [| discriminate].
    destruct (all_numbers M); [| discriminate].
    injection H as <-. simpl. now rewrite (IH l0).
Qed.

Lemma cosine_or_nan_shape (X : vector) (Y : matrix) :
  length (cosine_or_nan X Y) = length Y.
Proof.
  unfold cosine_or_nan, sk_cosine_similarity.
  destruct (numbers X) as [x |]; [| apply length_map].
  destruct (all_numbers Y) as [y |] eqn:E; [| apply length_map].
  destruct ((length x =? 0) || (length y =? 0)); [apply length_map |].
  destruct (negb (forallb (fun v => length v =? length x) y));
    [apply length_map |].
  rewrite length_map. now apply all_numbers_length.
Qed.

(** Term counts weighted as by [TfidfVectorizer(use_idf=False)], numpy's
    mean, scikit-learn's cosine similarity. *)
Definition l2_numeric : Numeric := {|
  tfidf_transform := l2_rows;
  tfidf_transform_rows := fun X => length_map _ X;
  mean_axis0 := overlap_mean;
  cosine_similarity := cosine_or_nan;
  cosine_similarity_shape := cosine_or_nan_shape
|}.











(** * Series operations *)

Lemma isin_In (x : string) (values : list string) :
  isin x values = true <-> In x values.
Proof.
  unfold isin. rewrite existsb_exists. split.
  - intros [y [Hy Heq]]. apply String.eqb_eq in Heq. now subst.
  - intros H. exists x. split; [assumption | apply String.eqb_refl].
Qed.

Lemma isin_false (x : string) (values : list string) :
  isin x values = false <-> ~ In x values.
Proof.
  rewrite <- isin_In. destruct (isin x values); intuition congruence.
Qed.

Lemma unique_In (x : string) (l : list string) :
  In x (unique l) <-> In x l.
Proof.
  induction l as [| y l IH]; simpl; [tauto |].
  rewrite filter_In, IH, negb_true_iff. split.
  - intros [H | [H _]]; [now left | now right].
  - intros [H | H]; [now left |].
    destruct (String.eqb y x) eqn:E.
    + left. now apply String.eqb_eq.
    + right. now split.
Qed.

Lemma unique_NoDup (l : list string) : NoDup (unique l).
Proof.
  induction l as [| y l IH]; simpl; constructor.
  - rewrite filter_In, String.eqb_refl. simpl. intros [_ H]. discriminate.
  - now apply NoDup_filter.
Qed.

(** Two lists with the same elements have the same number of distinct
    values, and [isin] does not tell them apart. *)
Lemma unique_same_elements (l l' : list string) :
  (forall x, In x l <-> In x l') ->
  Permutation (unique l) (unique l').
Proof.
  intros H. apply NoDup_Permutation; try apply unique_NoDup.
  intros x. now rewrite !unique_In.
Qed.

Lemma isin_Permutation (x : string) (l l' : list string) :
  Permutation l l' -> isin x l = isin x l'.
Proof.
  intros H. destruct (isin x l') eqn:E.
  - apply isin_In. apply isin_In in E.
    now apply (Permutation_in _ (Permutation_sym H)).
  - apply isin_false. apply isin_false in E. intros Hin. apply E.
    now apply (Permutation_in _ H).
Qed.

(** * [sort_values] *)

Section SortValues.

Context {sorter : Argsort}.

Lemma partition_seq_Permutation (f : nat -> bool) (l : list nat) :
  Permutation (filter (fun i => negb (f i)) l ++ filter f l) l.
Proof.
  induction l as [| a l IH]; simpl; [reflexivity |].
  destruct (f a); simpl.
  - rewrite <- Permutation_middle. now apply perm_skip.
  - now apply perm_skip.
Qed.

Lemma nargsort_desc_perm (items : list float64) :
  Permutation (nargsort_desc items) (seq 0 (length items)).
Proof.
  unfold nargsort_desc. cbv zeta.
  set (idx := seq 0 (length items)).
  set (I := filter (fun i => negb (isna (nth i items NaN))) idx).
  eapply Permutation_trans;
    [| apply (partition_seq_Permutation
                (fun i => isna (nth i items NaN)) idx)].
  apply Permutation_app_tail. fold I.
  eapply Permutation_trans; [apply Permutation_sym, Permutation_rev |].
  eapply Permutation_trans;
    [apply (take_Permutation (rev I) 0)
    | apply Permutation_sym, Permutation_rev].
  eapply Permutation_trans; [apply argsort_perm |].
  now rewrite !length_rev, length_map.
Qed.

Lemma sort_values_desc_perm (df : DataFrame) :
  Permutation (rows (sort_values_desc df)) (rows df).
Proof.
  unfold sort_values_desc, take. simpl.
  apply take_Permutation.
  eapply Permutation_trans; [apply nargsort_desc_perm |].
  now rewrite length_map.
Qed.

Lemma no_nan_positions (items : list float64) :
  Forall (fun x => isna x = false) items ->
  filter (fun i => isna (nth i items NaN)) (seq 0 (length items)) = [].
Proof.
  intros H. rewrite Forall_forall in H.
  assert (E : forall l, (forall i, In i l -> i < length items) ->
                        filter (fun i => isna (nth i items NaN)) l = []).
  { induction l as [| a l IH]; simpl; intros Hl; [reflexivity |].
    rewrite (H (nth a items NaN)).
    - apply IH. intros i Hi. apply Hl. now right.
    - apply nth_In, Hl. now left. }
  apply E. intros i Hi. apply in_seq in Hi. lia.
Qed.

(** Without NaN keys the positions come out by descending key. *)
Lemma nargsort_desc_sorted (items : list float64) :
  Forall (fun x => isna x = false) items ->
  StronglySorted
    (fun p q => (value (nth q items NaN) <= value (nth p items NaN))%Q)
    (nargsort_desc items).
Proof.
  intros Hnn. unfold nargsort_desc. cbv zeta.
  rewrite (no_nan_positions items Hnn), app_nil_r.
  set (I := filter (fun i => negb (isna (nth i items NaN)))
                   (seq 0 (length items))).
  set (keyAt := fun i => value (nth i items NaN)).
  apply (StronglySorted_rev
           (fun p q => (keyAt p <= keyAt q)%Q)).
  rewrite <- map_rev.
  set (K := map keyAt (rev I)).
  apply StronglySorted_map_In
    with (R := fun i j => (nth i K 0 <= nth j K 0)%Q);
    [| apply argsort_sorted].
  intros i j Hi Hj Hle.
  assert (Hlen : length K = length (rev I)) by apply length_map.
  assert (Hin : forall k, In k (argsort K) ->
                nth k K 0%Q = keyAt (nth k (rev I) 0)).
  { intros k Hk.
    apply (Permutation_in _ (argsort_perm K)) in Hk.
    apply in_seq in Hk. unfold K.
    rewrite (nth_indep _ 0%Q (keyAt 0)); [apply map_nth |].
    fold K. lia. }
  now rewrite <- !Hin.
Qed.

Lemma sort_values_desc_sorted (df : DataFrame) :
  Forall (fun r => isna (sim r) = false) (rows df) ->
  StronglySorted sim_ge (rows (sort_values_desc df)).
Proof.
  intros Hnn. unfold sort_values_desc, take. simpl.
  apply StronglySorted_map_In
    with (R := fun p q =>
                 (value (nth q (map sim (rows df)) NaN)
                  <= value (nth p (map sim (rows df)) NaN))%Q).
  - intros p q _ _ Hle. unfold sim_ge.
    change NaN with (sim blank_row) in Hle.
    now rewrite !map_nth in Hle.
  - apply nargsort_desc_sorted.
    rewrite Forall_forall in *. intros x Hx.
    apply in_map_iff in Hx. destruct Hx as [r [<- Hr]]. now apply Hnn.
Qed.

Lemma sort_values_desc_columns (df : DataFrame) :
  columns (sort_values_desc df) = columns df.
Proof. reflexivity. Qed.

End SortValues.

(** * The paths of [build_recommendations] *)

Lemma range_rows_labels (a : nat) (vs : list Videos.row) :
  map label (range_rows a vs) = seq a (length vs).
Proof.
  revert a. induction vs as [| v vs IH]; intros a; simpl;
    [reflexivity | now rewrite IH].
Qed.

Lemma range_rows_length (a : nat) (vs : list Videos.row) :
  length (range_rows a vs) = length vs.
Proof. now rewrite <- (length_map label), range_rows_labels, length_seq. Qed.

Lemma range_rows_video (a : nat) (vs : list Videos.row) :
  map video (range_rows a vs) = vs.
Proof.
  revert a. induction vs as [| v vs IH]; intros a; simpl;
    [reflexivity | now rewrite IH].
Qed.

Lemma empty_videos_frame (vs : list Videos.row) :
  empty (videos_frame vs) = match vs with [] => true | _ => false end.
Proof. now destruct vs. Qed.

Section Paths.

Context {numeric : Numeric} {sorter : Argsort}.

(** The term-frequency matrix has one row per text. *)
Lemma fit_transform_rows (texts : list string) (M : matrix) :
  fit_transform texts = Ok M -> length M = length texts.
Proof.
  unfold fit_transform.
  destruct (vocabulary (map tokenize texts)); [discriminate |].
  intros H. injection H as <-.
  rewrite tfidf_transform_rows. unfold count_matrix.
  now rewrite !length_map.
Qed.

(** Positions below the number of rows never raise. *)
Lemma take_rows_in_range (M : matrix) (idx : list nat) :
  Forall (fun i => i < length M) idx ->
  take_rows M idx = Ok (map (fun i => nth i M []) idx).
Proof.
  induction 1 as [| i idx Hi _ IH]; simpl; [reflexivity |].
  destruct (nth_error M i) as [v |] eqn:E.
  - rewrite IH. simpl. now rewrite (nth_error_nth _ _ _ E).
  - apply nth_error_None in E. lia.
Qed.

Lemma watched_idx_in_range (vs : list Videos.row) (ids : list string) :
  Forall (fun i => i < length vs) (watched_idx (videos_frame vs) ids).
Proof.
  rewrite Forall_forall. intros i Hi. unfold watched_idx in Hi.
  apply in_map_iff in Hi. destruct Hi as [r [<- Hr]].
  apply filter_In in Hr. destruct Hr as [Hr _].
  apply (in_map label) in Hr. simpl in Hr.
  rewrite range_rows_labels in Hr. apply in_seq in Hr. lia.
Qed.

Lemma scores_length (videos : DataFrame) (M : matrix) (ids : list string) :
  length (scores videos M ids) = length M.
Proof. apply cosine_similarity_shape. Qed.

Lemma scored_videos_frame (vs : list Videos.row) (M : matrix)
  (ids : list string) :
  fit_transform (map text_of (rows (videos_frame vs))) = Ok M ->
  scored (videos_frame vs) M (watched_idx (videos_frame vs) ids)
  = Ok (set_similarity (videos_frame vs)
                       (scores (videos_frame vs) M ids)).
Proof.
  intros HM. unfold scored. rewrite take_rows_in_range; [reflexivity |].
  apply fit_transform_rows in HM.
  rewrite length_map in HM. simpl in HM.
  rewrite range_rows_length in HM. rewrite HM.
  apply watched_idx_in_range.
Qed.

Lemma build_recommendations_fallback (videos : DataFrame)
  (progress : list Progress.row) (user_id : string) (top_n : Z) :
  fallback_path videos progress user_id ->
  build_recommendations videos progress user_id top_n = Ok videos.
Proof.
  unfold build_recommendations.
  intros [He | [[M HM] Hw]]; [now rewrite He |].
  destruct (empty videos); [reflexivity |].
  rewrite HM. simpl.
  destruct (length (watched_ids progress user_id) <? 2) eqn:E;
    [reflexivity |].
  apply Nat.ltb_ge in E.
  destruct Hw as [Hw | Hw]; [lia | now rewrite Hw].
Qed.

Lemma build_recommendations_ranked (vs : list Videos.row)
  (progress : list Progress.row) (user_id : string) (top_n : Z)
  (M : matrix) :
  ranked_path (videos_frame vs) progress user_id M ->
  build_recommendations (videos_frame vs) progress user_id top_n
  = Ok (head top_n (ranking (videos_frame vs) progress user_id M)).
Proof.
  intros (He & HM & Hlen & Hidx). unfold build_recommendations.
  rewrite He, HM. simpl.
  apply Nat.ltb_ge in Hlen. rewrite Hlen.
  destruct (watched_idx (videos_frame vs) (watched_ids progress user_id))
    as [| i idx] eqn:E; [now destruct Hidx |].
  rewrite <- E, (scored_videos_frame vs M _ HM). reflexivity.
Qed.

(** On the ranked path every row of the catalog gets its similarity: the
    column assignment of line 167 is given as many values as there are
    rows. *)
Lemma scores_cover_catalog (vs : list Videos.row) (M : matrix)
  (ids : list string) :
  fit_transform (map text_of (rows (videos_frame vs))) = Ok M ->
  length (scores (videos_frame vs) M ids) = length vs /\
  length (rows (set_similarity (videos_frame vs)
                  (scores (videos_frame vs) M ids))) = length vs.
Proof.
  intros HM. apply fit_transform_rows in HM.
  rewrite length_map in HM. simpl in HM. rewrite range_rows_length in HM.
  assert (E : length (scores (videos_frame vs) M ids) = length vs)
    by now rewrite scores_length.
  split; [exact E |].
  unfold set_similarity. simpl.
  rewrite length_map, length_combine, range_rows_length, E.
  apply Nat.min_id.
Qed.

(** Every run ends in exactly one way. *)
Lemma build_recommendations_cases (vs : list Videos.row)
  (progress : list Progress.row) (user_id : string) :
  fallback_path (videos_frame vs) progress user_id \/
  (exists M, ranked_path (videos_frame vs) progress user_id M) \/
  (exists e, forall top_n,
      build_recommendations (videos_frame vs) progress user_id top_n
      = Raise e).
Proof.
  destruct (empty (videos_frame vs)) eqn:He; [left; now left |].
  destruct (fit_transform (map text_of (rows (videos_frame vs))))
    as [M | e] eqn:HM.
  - destruct (length (watched_ids progress user_id) <? 2) eqn:E.
    + apply Nat.ltb_lt in E. left. right. split; [now exists M | now left].
    + apply Nat.ltb_ge in E.
      destruct (watched_idx (videos_frame vs)
                  (watched_ids progress user_id)) as [| i idx] eqn:Ei.
      * left. right. split; [now exists M | now right].
      * right. left. exists M. repeat split; try assumption.
        rewrite Ei. discriminate.
  - right. right. exists e. intros top_n.
    unfold build_recommendations. now rewrite He, HM.
Qed.

(** The caller (lines 205-206) shows the whole catalog on a fallback and
    on a ranking with no row alike: it only tests [feed.empty]. *)
Lemma recommended_feed_fallback (videos : DataFrame)
  (progress : list Progress.row) (user_id : string) :
  fallback_path videos progress user_id ->
  recommended_feed videos progress user_id = Ok videos.
Proof.
  intros Hf. unfold recommended_feed.
  rewrite (build_recommendations_fallback videos progress user_id 20 Hf).
  simpl. now destruct (empty videos).
Qed.

Lemma recommended_feed_empty_ranking (videos df : DataFrame)
  (progress : list Progress.row) (user_id : string) :
  build_recommendations videos progress user_id 20 = Ok df ->
  empty df = true ->
  recommended_feed videos progress user_id = Ok videos.
Proof.
  intros Hres He. unfold recommended_feed. rewrite Hres. simpl.
  now rewrite He.
Qed.

End Paths.

(** * The frames on the ranked path *)

Lemma In_firstn {A : Type} (n : nat) (l : list A) (x : A) :
  In x (firstn n l) -> In x l.
Proof.
  intros H. rewrite <- (firstn_skipn n l). apply in_or_app. now left.
Qed.

Lemma gt0_value (x : float64) :
  gt0 x = true <-> exists q, x = Fin q /\ (0 < q)%Q.
Proof.
  destruct x as [| q]; simpl.
  - split; [discriminate | intros [q [H _]]; discriminate].
  - unfold Qlt_bool. rewrite negb_true_iff. split.
    + intros H. exists q. split; [reflexivity |].
      destruct (Qlt_le_dec 0 q) as [Hlt | Hle]; [assumption |].
      apply Qle_bool_iff in Hle. congruence.
    + intros [q' [Hq Hlt]]. injection Hq as <-.
      destruct (Qle_bool q 0) eqn:E; [| reflexivity].
      apply Qle_bool_iff in E. exfalso. now apply (Qlt_not_le 0 q).
Qed.

Lemma gt0_not_na (x : float64) : gt0 x = true -> isna x = false.
Proof. now destruct x. Qed.


Section Frames.

Context {numeric : Numeric} {sorter : Argsort}.

Lemma eligible_In (ids : list string) (df : DataFrame) (r : Row) :
  In r (rows (eligible ids df)) <->
  In r (rows df) /\ ~ In (row_id r) ids /\ gt0 (sim r) = true.
Proof.
  unfold eligible, select. simpl.
  rewrite !filter_In, negb_true_iff, isin_false. tauto.
Qed.

Lemma eligible_columns (ids : list string) (df : DataFrame) :
  columns (eligible ids df) = columns df.
Proof. reflexivity. Qed.

(** A row with a NaN similarity fails [similarity > 0]: it never reaches
    [sort_values]. *)
Lemma eligible_no_nan (ids : list string) (df : DataFrame) :
  Forall (fun r => isna (sim r) = false) (rows (eligible ids df)).
Proof.
  rewrite Forall_forall. intros r Hr. apply eligible_In in Hr.
  now apply gt0_not_na.
Qed.

Lemma head_columns (n : Z) (df : DataFrame) :
  columns (head n df) = columns df.
Proof. reflexivity. Qed.

Lemma head_rows (n : Z) (df : DataFrame) :
  (0 <= n)%Z -> rows (head n df) = firstn (Z.to_nat n) (rows df).
Proof.
  intros Hn. unfold head. simpl.
  destruct (0 <=? n)%Z eqn:E; [reflexivity |].
  apply Z.leb_gt in E. lia.
Qed.

Lemma head_In (n : Z) (df : DataFrame) (r : Row) :
  In r (rows (head n df)) -> In r (rows df).
Proof. unfold head. simpl. apply In_firstn. Qed.

Lemma head_sorted (n : Z) (df : DataFrame) :
  StronglySorted sim_ge (rows df) ->
  StronglySorted sim_ge (rows (head n df)).
Proof. unfold head. simpl. apply StronglySorted_firstn. Qed.

Lemma set_similarity_columns (vs : list Videos.row) (sims : list float64) :
  columns (set_similarity (videos_frame vs) sims)
  = VIDEO_COLUMNS ++ ["similarity"].
Proof. reflexivity. Qed.

Lemma set_similarity_In (df : DataFrame) (sims : list float64) (r : Row) :
  In r (rows (set_similarity df sims)) ->
  exists r0 s, In r0 (rows df) /\ r = mkRow (label r0) (video r0) (Some s).
Proof.
  unfold set_similarity. simpl. intros H.
  apply in_map_iff in H. destruct H as [[r0 s] [<- H]].
  exists r0, s. split; [| reflexivity]. now apply in_combine_l in H.
Qed.


Lemma ranking_perm (videos : DataFrame) (progress : list Progress.row)
  (user_id : string) (M : matrix) :
  Permutation (rows (ranking videos progress user_id M))
              (rows (candidates videos progress user_id M)).
Proof. apply sort_values_desc_perm. Qed.

Lemma ranking_sorted (videos : DataFrame) (progress : list Progress.row)
  (user_id : string) (M : matrix) :
  StronglySorted sim_ge (rows (ranking videos progress user_id M)).
Proof. apply sort_values_desc_sorted, eligible_no_nan. Qed.

Lemma ranking_In (videos : DataFrame) (progress : list Progress.row)
  (user_id : string) (M : matrix) (r : Row) :
  In r (rows (ranking videos progress user_id M)) ->
  ~ In (row_id r) (watched_ids progress user_id) /\ gt0 (sim r) = true.
Proof.
  intros H. apply (Permutation_in _ (ranking_perm _ _ _ _)) in H.
  now apply eligible_In in H.
Qed.

(** A ranked result is never the frame that came in. *)
Lemma ranked_not_fallback (vs : list Videos.row) (n : Z)
  (progress : list Progress.row) (user_id : string) (M : matrix) :
  head n (ranking (videos_frame vs) progress user_id M) <> videos_frame vs.
Proof.
  intros H. apply (f_equal columns) in H. discriminate H.
Qed.

End Frames.

Lemma watched_ids_spec (progress : list Progress.row) (user_id id : string) :
  In id (watched_ids progress user_id) <-> has_watched progress user_id id.
Proof.
  unfold watched_ids, user_watched, has_watched.
  rewrite unique_In, in_map_iff. split.
  - intros [e [<- He]]. apply filter_In in He. destruct He as [He Hc].
    apply andb_true_iff in Hc. destruct Hc as [Hu Hw].
    apply String.eqb_eq in Hu. apply Z.eqb_eq in Hw. now exists e.
  - intros [e (He & Hu & Hw & Hid)]. exists e. split; [assumption |].
    apply filter_In. split; [assumption |].
    apply andb_true_iff. split; [now apply String.eqb_eq | now apply Z.eqb_eq].
Qed.

Lemma watched_idx_nil (vs : list Videos.row) (ids : list string) :
  watched_idx (videos_frame vs) ids = [] <-> valid_ids vs ids = [].
Proof.
  unfold watched_idx, valid_ids. split; intros H.
  - apply map_eq_nil in H.
    destruct (filter (fun id => isin id (map Videos.video_id vs)) ids)
      as [| id l] eqn:E; [reflexivity | exfalso].
    assert (Hid : In id (id :: l)) by now left.
    rewrite <- E in Hid. apply filter_In in Hid. destruct Hid as [Hid Hc].
    apply isin_In in Hc. rewrite <- (range_rows_video 0 vs) in Hc.
    rewrite map_map in Hc. apply in_map_iff in Hc.
    destruct Hc as [r [Hr Hin]].
    assert (Hf : In r (filter (fun r => isin (row_id r) ids)
                         (rows (videos_frame vs)))).
    { apply filter_In. split; [exact Hin |].
      apply isin_In. unfold row_id. now rewrite Hr. }
    rewrite H in Hf. destruct Hf.
  - destruct (filter (fun r => isin (row_id r) ids) (rows (videos_frame vs)))
      as [| r l] eqn:E; [reflexivity | exfalso].
    assert (Hr : In r (r :: l)) by now left.
    rewrite <- E in Hr. apply filter_In in Hr. destruct Hr as [Hr Hc].
    apply isin_In in Hc.
    assert (Hf : In (row_id r) (filter
                   (fun id => isin id (map Videos.video_id vs)) ids)).
    { apply filter_In. split; [exact Hc |]. apply isin_In.
      rewrite <- (range_rows_video 0 vs), map_map.
      apply in_map_iff. now exists r. }
    rewrite H in Hf. destruct Hf.
Qed.

(** * The vocabulary of the vectorizer *)

Lemma concat_all_nil {A : Type} (l : list (list A)) :
  Forall (fun x => x = []) l -> concat l = [].
Proof.
  induction 1 as [| x l Hx _ IH]; simpl; [reflexivity |].
  now rewrite Hx, IH.
Qed.

Section Vocabulary.

Context {numeric : Numeric}.

(** The vocabulary is empty exactly when no text has a token. *)
Lemma insert_term_not_nil (t : string) (vocab : list string) :
  insert_term t vocab <> [].
Proof.
  destruct vocab as [| u vocab]; simpl; [discriminate |].
  destruct (String.compare t u); discriminate.
Qed.

Lemma fold_insert_not_nil (ts vocab : list string) :
  vocab <> [] ->
  fold_left (fun vocab t => insert_term t vocab) ts vocab <> [].
Proof.
  revert vocab. induction ts as [| t ts IH]; simpl; intros vocab H;
    [assumption |].
  apply IH, insert_term_not_nil.
Qed.

Lemma vocabulary_nil (docs : list (list string)) :
  vocabulary docs = [] <-> Forall (fun d => d = []) docs.
Proof.
  unfold vocabulary. split.
  - intros H. destruct (concat docs) as [| t ts] eqn:E.
    + clear H. induction docs as [| d docs IH]; [constructor |].
      simpl in E. apply app_eq_nil in E. destruct E as [-> E].
      constructor; [reflexivity | now apply IH].
    + simpl in H. exfalso.
      apply (fold_insert_not_nil ts (insert_term t [])); [| exact H].
      apply insert_term_not_nil.
  - intros H. now rewrite concat_all_nil.
Qed.

Lemma fit_transform_raises (texts : list string) (e : exn) :
  fit_transform texts = Raise e <->
  Forall (fun t => tokenize t = []) texts /\
  e = ValueError
        "empty vocabulary; perhaps the documents only contain stop words".
Proof.
  unfold fit_transform.
  destruct (vocabulary (map tokenize texts)) as [| u vocab] eqn:E.
  - apply vocabulary_nil in E. rewrite Forall_map in E. split.
    + intros H. injection H as <-. now split.
    + intros [_ ->]. reflexivity.
  - split; [discriminate |]. intros [H _]. exfalso.
    assert (Hn : vocabulary (map tokenize texts) = []).
    { apply vocabulary_nil. now rewrite Forall_map. }
    rewrite Hn in E. discriminate E.
Qed.

End Vocabulary.

(** * Sample data *)

Module Examples.

Definition reel (id title topic tags : string) : Videos.row :=
  Videos.mk id (Some title) (Some topic) (Some tags) (Some "Beginner")
            None (Some "https://example.org/reel") (Some 60%Z).

(** The catalog of the specification's scenarios. *)
Definition catalog : list Videos.row :=
  [reel "v1" "Binary Search" "DSA" "search,arrays";
   reel "v2" "Binary Search Trees" "DSA" "trees,search";
   reel "v3" "Pasta Recipes" "Cooking" "food"].

(** A larger catalog; v4 and v5 carry the same text. *)
Definition library : list Videos.row :=
  catalog ++
  [reel "v4" "Graph search" "DSA" "graphs";
   reel "v5" "Graph search" "DSA" "graphs";
   reel "v6" "Binary heaps" "DSA search" "heaps"].

(** A reel whose title, topic and tags are all missing. *)
Definition blank : Videos.row :=
  Videos.mk "v1" None None None None None None None.

Definition event (user_id id : string) : Progress.row :=
  Progress.mk user_id None id 1%Z.

Definition user : string := "demo_user".

Definition watched_v1 : list Progress.row := [event user "v1"].

Definition watched_v1_v2 : list Progress.row :=
  [event user "v1"; event user "v2"].

(** v9 is not in the catalog (a deleted reel). *)
Definition watched_v1_v9 : list Progress.row :=
  [event user "v1"; event user "v9"].

(** The matrix [fit_transform] returns for [library] under
    [overlap_numeric]. *)
Definition library_tfidf : matrix :=
  let docs := map tokenize (map text_of (rows (videos_frame library))) in
  tfidf_transform (Numeric := overlap_numeric)
    (count_matrix (vocabulary docs) docs).

(** Two watched reels on Python, nine reels on Python for data work and
    nine more reels on Python alone. *)
Definition series : list Videos.row :=
  map (fun id => reel id "Python" "Python" "python") ["v1"; "v2"] ++
  map (fun id => reel id "Python" "Data" "python")
      ["v3"; "v4"; "v5"; "v6"; "v7"; "v8"; "v9"; "v10"; "v11"] ++
  map (fun id => reel id "Python" "Python" "python")
      ["v12"; "v13"; "v14"; "v15"; "v16"; "v17"; "v18"; "v19"; "v20"].

(** The library with a reel whose text has no token. *)
Definition shelf : list Videos.row := library ++ [reel "v7" "C" "C" ""].

(** The matrix [fit_transform] returns for [shelf] under [l2_numeric]. *)
Definition shelf_l2 : matrix :=
  let docs := map tokenize (map text_of (rows (videos_frame shelf))) in
  tfidf_transform (Numeric := l2_numeric)
    (count_matrix (vocabulary docs) docs).

End Examples.

(** * Runs on the sample data *)

(** v1 and v2 watched: v3 shares no term with them, the ranking is empty
    and the result is not the catalog. *)
Example run_two_watched :
  build_recommendations (numeric := overlap_numeric)
    (sorter := stable_argsort) (videos_frame Examples.catalog)
    Examples.watched_v1_v2 Examples.user 10 = Ok empty_ranked.
Proof. vm_compute. reflexivity. Qed.

(** Only v1 watched: the catalog comes back. *)
Example run_one_watched :
  build_recommendations (numeric := overlap_numeric)
    (sorter := stable_argsort) (videos_frame Examples.catalog)
    Examples.watched_v1 Examples.user 10
  = Ok (videos_frame Examples.catalog).
Proof. vm_compute. reflexivity. Qed.

(** An empty catalog comes back as it is. *)
Example run_empty_catalog :
  build_recommendations (numeric := overlap_numeric)
    (sorter := stable_argsort) (videos_frame [])
    Examples.watched_v1_v2 Examples.user 10 = Ok (videos_frame []).
Proof. reflexivity. Qed.

(** With a stable argsort, [nargsort]'s two reversals keep v4 before v5. *)
Example run_library_stable :
  match build_recommendations (numeric := overlap_numeric)
          (sorter := stable_argsort) (videos_frame Examples.library)
          Examples.watched_v1_v2 Examples.user 10 with
  | Ok df => map row_id (rows df) = ["v6"; "v4"; "v5"]
  | Raise _ => False
  end.
Proof. vm_compute. reflexivity. Qed.

Example tokenize_sample :
  tokenize "Binary Search DSA search,arrays C b_c 9x"
  = ["binary"; "search"; "dsa"; "search"; "arrays"; "b_c"; "9x"].
Proof. reflexivity. Qed.

(** * The claims *)




(** C1, as amended: on the ranked path (a catalog that is not empty, a
    vectorizer that returned, two or more distinct watched ids, one of them
    at least in the catalog) the function returns, and no item of its output
    has an id for which the user has a watched=1 event, whatever the
    similarities are. *)
Theorem C1_ranked_output_excludes_watched
  (numeric : Numeric) (sorter : Argsort) (vs : list Videos.row)
  (progress : list Progress.row) (user_id : string) (top_n : Z)
  (M : matrix) :
  ranked_path (videos_frame vs) progress user_id M ->
  exists df,
    build_recommendations (videos_frame vs) progress user_id top_n = Ok df /\
    Forall (fun r => ~ has_watched progress user_id (row_id r)) (rows df).
Proof.
  intros Hp. eexists. split.
  - exact (build_recommendations_ranked vs progress user_id top_n M Hp).
  - rewrite Forall_forall. intros r Hr Hw.
    apply head_In, ranking_In in Hr. destruct Hr as [Hr _].
    apply Hr. now apply watched_ids_spec.
Qed.

Lemma C1_witness :
  exists df,
    build_recommendations (numeric := overlap_numeric)
      (sorter := stable_argsort) (videos_frame Examples.library)
      Examples.watched_v1_v2 Examples.user 20 = Ok df /\
    Forall (fun r => ~ has_watched Examples.watched_v1_v2 Examples.user
                       (row_id r)) (rows df).
Proof.
  eapply (C1_ranked_output_excludes_watched overlap_numeric stable_argsort).
  split; [reflexivity |]. split; [reflexivity |].
  split; [vm_compute; lia | vm_compute; discriminate].
Defined.

(** C1 as stated fails: with a single watched reel the function returns the
    whole catalog, the watched reel v1 included. *)
Lemma C1_counterexample :
  exists r,
    build_recommendations (numeric := overlap_numeric)
      (sorter := stable_argsort) (videos_frame Examples.catalog)
      Examples.watched_v1 Examples.user 10
    = Ok (videos_frame Examples.catalog) /\
    In r (rows (videos_frame Examples.catalog)) /\
    has_watched Examples.watched_v1 Examples.user (row_id r).
Proof.
  exists (mkRow 0 (Examples.reel "v1" "Binary Search" "DSA" "search,arrays")
                None).
  split; [vm_compute; reflexivity |]. split; [now left |].
  exists (Examples.event Examples.user "v1").
  repeat split. now left.
Qed.









(** C3, as amended: the result is the fallback exactly when the catalog is
    empty, or when, the vectorizer having returned, the user has fewer than
    two distinct watched ids (counted whether or not they are in the
    catalog) or none of the watched ids is in the catalog.  In particular
    one distinct watched id gives the fallback, and one watched id in the
    catalog together with one outside it does not. *)
Theorem C3_fallback_iff_insufficient_history
  (numeric : Numeric) (sorter : Argsort) (vs : list Videos.row)
  (progress : list Progress.row) (user_id : string) (top_n : Z) :
  build_recommendations (videos_frame vs) progress user_id top_n
  = Ok (videos_frame vs)
  <->
  vs = [] \/
  ((exists M, fit_transform (map text_of (rows (videos_frame vs))) = Ok M) /\
   (length (watched_ids progress user_id) < 2 \/
    valid_ids vs (watched_ids progress user_id) = [])).
Proof.
  split.
  - intros Hres.
    destruct (build_recommendations_cases vs progress user_id)
      as [[He | [HM Hw]] | [[M Hp] | [e He]]].
    + left. rewrite empty_videos_frame in He. now destruct vs.
    + right. split; [exact HM |].
      destruct Hw as [Hw | Hw]; [now left | right].
      now apply watched_idx_nil.
    + exfalso.
      rewrite (build_recommendations_ranked vs progress user_id top_n M Hp)
        in Hres.
      apply (ranked_not_fallback vs top_n progress user_id M). congruence.
    + rewrite He in Hres. discriminate Hres.
  - intros H. apply build_recommendations_fallback.
    destruct H as [-> | [HM Hw]]; [now left | right].
    split; [exact HM |].
    destruct Hw as [Hw | Hw]; [now left | right]. now apply watched_idx_nil.
Qed.

Lemma C3_witness :
  build_recommendations (numeric := overlap_numeric)
    (sorter := stable_argsort) (videos_frame Examples.catalog)
    Examples.watched_v1 Examples.user 20
  = Ok (videos_frame Examples.catalog).
Proof.
  apply (proj2 (C3_fallback_iff_insufficient_history overlap_numeric
                  stable_argsort Examples.catalog Examples.watched_v1
                  Examples.user 20)).
  right. split; [eexists; reflexivity |]. left. vm_compute. lia.
Defined.

(** C3 as stated fails: with v1 and a deleted v9 watched, exactly one
    distinct watched id is in the catalog, yet the result is a ranked frame
    built from the profile of v1 alone. *)
Lemma C3_counterexample :
  length (valid_ids Examples.catalog
            (watched_ids Examples.watched_v1_v9 Examples.user)) = 1 /\
  exists df,
    build_recommendations (numeric := overlap_numeric)
      (sorter := stable_argsort) (videos_frame Examples.catalog)
      Examples.watched_v1_v9 Examples.user 10 = Ok df /\
    In "similarity" (columns df) /\
    map row_id (rows df) = ["v2"] /\
    df <> videos_frame Examples.catalog.
Proof.
  split; [reflexivity |].
  eexists. split; [vm_compute; reflexivity |].
  split; [simpl; tauto |]. split; [reflexivity |].
  intros H. apply (f_equal columns) in H. discriminate H.
Qed.

Lemma sorted_prefix_precedes (S : list Row) (k : nat) (a b : Row) :
  StronglySorted sim_ge S ->
  In a S -> In b (firstn k S) ->
  (value (sim b) < value (sim a))%Q ->
  precedes a b (firstn k S).
Proof.
  intros Hs Ha Hb Hlt.
  destruct (in_split _ _ Hb) as (l1 & l3 & E).
  rewrite <- (firstn_skipn k S), E, <- app_assoc in Hs, Ha.
  simpl in Hs, Ha.
  apply StronglySorted_app_inv in Hs. destruct Hs as (_ & Hs & _).
  apply StronglySorted_inv in Hs. destruct Hs as [_ Hall].
  rewrite Forall_forall in Hall.
  apply in_app_or in Ha. destruct Ha as [Ha | [Ha | Ha]].
  - destruct (in_split _ _ Ha) as (m1 & m2 & ->).
    exists m1, m2, l3. rewrite E, <- app_assoc. reflexivity.
  - subst a. exfalso. now apply (Qlt_irrefl (value (sim b))).
  - exfalso. apply Hall in Ha. unfold sim_ge in Ha.
    now apply (Qlt_not_le _ _ Hlt).
Qed.

Lemma head_prefix (n : Z) (df : DataFrame) :
  exists k, rows (head n df) = firstn k (rows df).
Proof. unfold head. simpl. now eexists. Qed.

(** C4, as amended: on the ranked path the returned reels are in
    descending order of similarity, and of two eligible reels the one of
    strictly higher similarity comes before the other whenever the other is
    returned.  Nothing is said of reels of equal similarity. *)
Theorem C4_ranked_output_descending
  (numeric : Numeric) (sorter : Argsort) (vs : list Videos.row)
  (progress : list Progress.row) (user_id : string) (top_n : Z)
  (M : matrix) :
  ranked_path (videos_frame vs) progress user_id M ->
  exists df,
    build_recommendations (videos_frame vs) progress user_id top_n = Ok df /\
    StronglySorted sim_ge (rows df) /\
    (forall a b,
        In a (rows (candidates (videos_frame vs) progress user_id M)) ->
        In b (rows df) ->
        (value (sim b) < value (sim a))%Q ->
        precedes a b (rows df)).
Proof.
  intros Hp. eexists. split; [| split].
  - exact (build_recommendations_ranked vs progress user_id top_n M Hp).
  - apply head_sorted, ranking_sorted.
  - intros a b Ha Hb Hlt.
    destruct (head_prefix top_n
                (ranking (videos_frame vs) progress user_id M)) as [k Hk].
    rewrite Hk in *.
    apply sorted_prefix_precedes; try assumption.
    + apply ranking_sorted.
    + apply (Permutation_in _ (Permutation_sym (ranking_perm _ _ _ _))).
      exact Ha.
Qed.

Lemma C4_witness :
  exists df,
    build_recommendations (numeric := overlap_numeric)
      (sorter := stable_argsort) (videos_frame Examples.library)
      Examples.watched_v1_v2 Examples.user 2 = Ok df /\
    StronglySorted sim_ge (rows df) /\
    (forall a b,
        In a (rows (candidates (numeric := overlap_numeric)
                      (videos_frame Examples.library)
                      Examples.watched_v1_v2 Examples.user
                      Examples.library_tfidf)) ->
        In b (rows df) ->
        (value (sim b) < value (sim a))%Q ->
        precedes a b (rows df)).
Proof.
  apply (C4_ranked_output_descending overlap_numeric stable_argsort
           Examples.library Examples.watched_v1_v2 Examples.user 2).
  split; [reflexivity |]. split; [reflexivity |].
  split; [vm_compute; lia | vm_compute; discriminate].
Defined.

Fixpoint after (x : nat) (l : list nat) : list nat :=
  match l with
  | [] => []
  | z :: l' => if z =? x then l' else after x l'
  end.

Lemma precedes_after (x y : nat) (l : list nat) :
  precedes x y l -> In y (after x l).
Proof.
  intros (l1 & l2 & l3 & ->).
  induction l1 as [| z l1 IH]; simpl.
  - rewrite Nat.eqb_refl. apply in_or_app. right. now left.
  - destruct (z =? x); [| exact IH].
    apply in_or_app. right. right. apply in_or_app. right. now left.
Qed.

Lemma precedes_map {A B : Type} (f : A -> B) (a b : A) (l : list A) :
  precedes a b l -> precedes (f a) (f b) (map f l).
Proof.
  intros (l1 & l2 & l3 & ->).
  exists (map f l1), (map f l2), (map f l3).
  now rewrite map_app, map_cons, map_app, map_cons.
Qed.

(** C4 as stated fails in its tie-break: [sort_values] is called with
    pandas' default kind, numpy's quicksort, which does not keep equal keys
    in their order.  With v1 and v2 watched the series has eighteen
    candidates: nine whose text differs from that of the watched reels in
    one word, followed in the catalog by nine that carry the text of the
    watched reels.  The partition step of the sort moves reels of equal similarity
    past one another, and v19 is returned before v14. *)
Lemma C4_counterexample :
  exists df,
    build_recommendations (numeric := overlap_numeric) (sorter := numpy_argsort)
      (videos_frame Examples.series) Examples.watched_v1_v2
      Examples.user 20 = Ok df /\
    length (rows df) = 18 /\
    ~ ties_in_catalog_order df.
Proof.
  eexists. split; [vm_compute; reflexivity |]. split; [reflexivity |].
  intros H.
  specialize (H (mkRow 13 (Examples.reel "v14" "Python" "Python" "python")
                       (Some (Fin 9)))
                (mkRow 18 (Examples.reel "v19" "Python" "Python" "python")
                       (Some (Fin 9)))).
  assert (P : In 18 (after 13 [11; 12; 18; 17; 16; 15; 14; 13; 19;
                               3; 10; 9; 8; 7; 6; 5; 4; 2])).
  { apply precedes_after.
    apply (precedes_map label) in H; [exact H | | | reflexivity | simpl; lia];
      vm_compute; tauto. }
  simpl in P. intuition discriminate.
Qed.

(** A text without a token of two word characters adds nothing to the
    vocabulary, and its row of term counts is all zero. *)
Lemma count_row_without_tokens (vocab : list string) (doc : string) :
  tokenize doc = [] ->
  map (fun t => term_count t (tokenize doc)) vocab
  = repeat 0 (length vocab).
Proof.
  intros ->. induction vocab as [| t vocab IH]; simpl;
    [reflexivity | now rewrite IH].
Qed.

(** When no text of the catalog has a token, the vocabulary is empty and
    [fit_transform] raises before the watch history is looked at. *)
Lemma empty_vocabulary_raises {numeric : Numeric} {sorter : Argsort}
  (videos : DataFrame) (progress : list Progress.row) (user_id : string)
  (top_n : Z) :
  empty videos = false ->
  Forall (fun r => tokenize (text_of r) = []) (rows videos) ->
  build_recommendations videos progress user_id top_n
  = Raise (ValueError
      "empty vocabulary; perhaps the documents only contain stop words").
Proof.
  intros He Hall. unfold build_recommendations. rewrite He.
  unfold fit_transform, vocabulary.
  rewrite concat_all_nil; [reflexivity |].
  rewrite Forall_forall in *. intros d Hd.
  apply in_map_iff in Hd. destruct Hd as [t [<- Ht]].
  apply in_map_iff in Ht. destruct Ht as [r [<- Hr]]. now apply Hall.
Qed.

(** C5 fails on the code: for a catalog whose only reel has no title, topic
    or tags (and likewise for a reel titled "C" on topic "C", whose text has
    no token of two characters) [TfidfVectorizer.fit_transform] raises
    ValueError, whatever the watch history, and [build_recommendations]
    lets it through. *)
Theorem C5_empty_vocabulary_raises
  (numeric : Numeric) (sorter : Argsort) (progress : list Progress.row)
  (user_id : string) (top_n : Z) :
  build_recommendations (videos_frame [Examples.blank]) progress user_id top_n
  = Raise (ValueError
      "empty vocabulary; perhaps the documents only contain stop words")
  /\
  build_recommendations
    (videos_frame [Examples.reel "video_1" "C" "C" ""]) progress user_id top_n
  = Raise (ValueError
      "empty vocabulary; perhaps the documents only contain stop words").
Proof.
  split; apply empty_vocabulary_raises; try reflexivity;
    repeat constructor.
Qed.

(** C6: on the ranked path every returned reel carries a similarity that is
    a number strictly above 0, and no scored reel whose similarity is not
    above 0 (at most 0, or NaN) is returned. *)
Theorem C6_ranked_similarity_positive
  (numeric : Numeric) (sorter : Argsort) (vs : list Videos.row)
  (progress : list Progress.row) (user_id : string) (top_n : Z)
  (M : matrix) :
  ranked_path (videos_frame vs) progress user_id M ->
  exists df,
    build_recommendations (videos_frame vs) progress user_id top_n = Ok df /\
    Forall (fun r => exists q, similarity r = Some (Fin q) /\ (0 < q)%Q)
           (rows df) /\
    Forall (fun r => gt0 (sim r) = false -> ~ In r (rows df))
           (rows (set_similarity (videos_frame vs)
                    (scores (videos_frame vs) M
                       (watched_ids progress user_id)))).
Proof.
  intros Hp. eexists. split; [| split].
  - exact (build_recommendations_ranked vs progress user_id top_n M Hp).
  - rewrite Forall_forall. intros r Hr.
    apply head_In, ranking_In in Hr. destruct Hr as [_ Hr].
    apply gt0_value in Hr. destruct Hr as [q [Hq Hlt]].
    exists q. split; [| assumption].
    unfold sim in Hq. destruct (similarity r); [now subst | discriminate].
  - rewrite Forall_forall. intros r _ Hr Hin.
    apply head_In, ranking_In in Hin. destruct Hin as [_ Hin]. congruence.
Qed.

Lemma C6_witness :
  exists df,
    build_recommendations (numeric := overlap_numeric)
      (sorter := stable_argsort) (videos_frame Examples.library)
      Examples.watched_v1_v2 Examples.user 20 = Ok df /\
    Forall (fun r => exists q, similarity r = Some (Fin q) /\ (0 < q)%Q)
           (rows df) /\
    Forall (fun r => gt0 (sim r) = false -> ~ In r (rows df))
           (rows (set_similarity (videos_frame Examples.library)
                    (scores (numeric := overlap_numeric)
                       (videos_frame Examples.library)
                       Examples.library_tfidf
                       (watched_ids Examples.watched_v1_v2 Examples.user)))).
Proof.
  apply (C6_ranked_similarity_positive overlap_numeric stable_argsort
           Examples.library Examples.watched_v1_v2 Examples.user 20).
  split; [reflexivity |]. split; [reflexivity |].
  split; [vm_compute; lia | vm_compute; discriminate].
Defined.





(** The reel v7 of the shelf has no token: its vector is all zeros, its
    similarity is 0 and it is not returned. *)
Example run_zero_vector_reel :
  nth_error Examples.shelf_l2 6 = Some (repeat (Fin 0) 12) /\
  nth_error (scores (numeric := l2_numeric) (videos_frame Examples.shelf)
               Examples.shelf_l2
               (watched_ids Examples.watched_v1_v2 Examples.user)) 6
  = Some (Fin 0) /\
  match build_recommendations (numeric := l2_numeric)
          (sorter := stable_argsort) (videos_frame Examples.shelf)
          Examples.watched_v1_v2 Examples.user 20 with
  | Ok df => Forall (fun r => row_id r <> "v7") (rows df)
  | Raise _ => False
  end.
Proof. vm_compute. repeat constructor; discriminate. Qed.

(** A user who watched the two reels without a token has a profile of
    zeros: every similarity is 0 and the ranked result has no row. *)
Example run_zero_profile :
  build_recommendations (numeric := l2_numeric) (sorter := stable_argsort)
    (videos_frame (Examples.reel "v8" "C" "C" "" :: Examples.shelf))
    [Examples.event Examples.user "v7"; Examples.event Examples.user "v8"]
    Examples.user 20
  = Ok empty_ranked.
Proof. vm_compute. reflexivity. Qed.

(** The watch history enters [build_recommendations] only through the set
    of distinct watched ids. *)
Lemma build_recommendations_ids_ext {numeric : Numeric} {sorter : Argsort}
  (videos : DataFrame) (progress progress' : list Progress.row)
  (user_id : string) (top_n : Z) :
  Permutation (watched_ids progress user_id)
              (watched_ids progress' user_id) ->
  build_recommendations videos progress user_id top_n
  = build_recommendations videos progress' user_id top_n.
Proof.
  intros Hperm. unfold build_recommendations.
  destruct (empty videos); [reflexivity |].
  destruct (fit_transform (map text_of (rows videos))) as [M | e];
    [simpl | reflexivity].
  rewrite (Permutation_length Hperm).
  destruct (length (watched_ids progress' user_id) <? 2); [reflexivity |].
  assert (Hidx : watched_idx videos (watched_ids progress user_id)
                 = watched_idx videos (watched_ids progress' user_id)).
  { unfold watched_idx. f_equal. apply filter_ext. intros r.
    now apply isin_Permutation. }
  assert (Hel : forall sc, eligible (watched_ids progress user_id) sc
                           = eligible (watched_ids progress' user_id) sc).
  { intros sc. unfold eligible, select. simpl. do 2 f_equal.
    apply filter_ext. intros r. f_equal. now apply isin_Permutation. }
  rewrite Hidx.
  destruct (watched_idx videos (watched_ids progress' user_id));
    [reflexivity |].
  destruct (scored videos M (n :: l)); simpl; [| reflexivity].
  now rewrite Hel.
Qed.

(** C8: repeating an event of the watch history, at any place in it, leaves
    the result of [build_recommendations] unchanged, for every catalog. *)
Theorem C8_duplicate_event_is_neutral
  (numeric : Numeric) (sorter : Argsort) (videos : DataFrame)
  (before after : list Progress.row) (e : Progress.row)
  (user_id : string) (top_n : Z) :
  In e (before ++ after) ->
  build_recommendations videos (before ++ e :: after) user_id top_n
  = build_recommendations videos (before ++ after) user_id top_n.
Proof.
  intros He. apply build_recommendations_ids_ext.
  apply NoDup_Permutation; try apply unique_NoDup.
  intros id. fold (watched_ids (before ++ e :: after) user_id).
  fold (watched_ids (before ++ after) user_id).
  rewrite !watched_ids_spec. unfold has_watched.
  split; intros [x (Hx & Hu & Hw & Hid)]; exists x;
    (split; [| now repeat split]).
  - apply in_app_or in Hx. destruct Hx as [Hx | [<- | Hx]];
      [apply in_or_app; now left | exact He | apply in_or_app; now right].
  - apply in_app_or in Hx. apply in_or_app.
    destruct Hx as [Hx | Hx]; [now left | right; now right].
Qed.

Lemma C8_witness :
  build_recommendations (numeric := overlap_numeric)
    (sorter := stable_argsort) (videos_frame Examples.library)
    ([Examples.event Examples.user "v1"]
       ++ Examples.event Examples.user "v2"
       :: [Examples.event Examples.user "v2"])
    Examples.user 20
  = build_recommendations (numeric := overlap_numeric)
      (sorter := stable_argsort) (videos_frame Examples.library)
      ([Examples.event Examples.user "v1"]
         ++ [Examples.event Examples.user "v2"])
      Examples.user 20.
Proof.
  apply (C8_duplicate_event_is_neutral overlap_numeric stable_argsort).
  simpl. right. left. reflexivity.
Defined.

(** C9: on the ranked path, for a count [top_n] that is not negative, the
    result holds the first [top_n] rows of the sorted eligible candidates:
    at most [top_n] rows, exactly [top_n] when more candidates qualify, and
    all of them otherwise. *)
Theorem C9_first_top_n_candidates
  (numeric : Numeric) (sorter : Argsort) (vs : list Videos.row)
  (progress : list Progress.row) (user_id : string) (top_n : Z)
  (M : matrix) :
  (0 <= top_n)%Z ->
  ranked_path (videos_frame vs) progress user_id M ->
  let sorted := ranking (videos_frame vs) progress user_id M in
  Permutation (rows sorted)
              (rows (candidates (videos_frame vs) progress user_id M)) /\
  StronglySorted sim_ge (rows sorted) /\
  exists df,
    build_recommendations (videos_frame vs) progress user_id top_n = Ok df /\
    rows df = firstn (Z.to_nat top_n) (rows sorted) /\
    length (rows df) <= Z.to_nat top_n /\
    (Z.to_nat top_n < length (rows sorted) ->
     length (rows df) = Z.to_nat top_n) /\
    (length (rows sorted) <= Z.to_nat top_n -> rows df = rows sorted).
Proof.
  intros Hn Hp sorted.
  split; [apply ranking_perm |]. split; [apply ranking_sorted |].
  eexists. split;
    [exact (build_recommendations_ranked vs progress user_id top_n M Hp) |].
  fold sorted. rewrite (head_rows top_n sorted Hn).
  split; [reflexivity |]. split; [apply firstn_le_length |].
  split.
  - intros Hlt. rewrite length_firstn. lia.
  - intros Hle. now apply firstn_all2.
Qed.

Lemma C9_witness :
  let sorted := ranking (numeric := overlap_numeric)
                  (sorter := stable_argsort) (videos_frame Examples.library)
                  Examples.watched_v1_v2 Examples.user
                  Examples.library_tfidf in
  Permutation (rows sorted)
              (rows (candidates (numeric := overlap_numeric)
                       (videos_frame Examples.library)
                       Examples.watched_v1_v2 Examples.user
                       Examples.library_tfidf)) /\
  StronglySorted sim_ge (rows sorted) /\
  exists df,
    build_recommendations (numeric := overlap_numeric)
      (sorter := stable_argsort) (videos_frame Examples.library)
      Examples.watched_v1_v2 Examples.user 2 = Ok df /\
    rows df = firstn (Z.to_nat 2) (rows sorted) /\
    length (rows df) <= Z.to_nat 2 /\
    (Z.to_nat 2 < length (rows sorted) -> length (rows df) = Z.to_nat 2) /\
    (length (rows sorted) <= Z.to_nat 2 -> rows df = rows sorted).
Proof.
  apply (C9_first_top_n_candidates overlap_numeric stable_argsort
           Examples.library Examples.watched_v1_v2 Examples.user 2).
  - lia.
  - split; [reflexivity |]. split; [reflexivity |].
    split; [vm_compute; lia | vm_compute; discriminate].
Defined.

(** C10: on each of the three fallback returns (empty catalog; fewer than
    two distinct watched ids; no watched id in the catalog) the function
    returns the frame it was given, unchanged: the same rows in the same
    order, watched reels included. *)
Theorem C10_fallback_returns_catalog
  (numeric : Numeric) (sorter : Argsort) (videos : DataFrame)
  (progress : list Progress.row) (user_id : string) (top_n : Z) :
  fallback_path videos progress user_id ->
  exists df,
    build_recommendations videos progress user_id top_n = Ok df /\
    df = videos /\
    map video (rows df) = map video (rows videos) /\
    map label (rows df) = map label (rows videos).
Proof.
  intros Hf. exists videos.
  split; [now apply build_recommendations_fallback | now repeat split].
Qed.

Lemma C10_witness :
  exists df,
    build_recommendations (numeric := overlap_numeric)
      (sorter := stable_argsort) (videos_frame Examples.catalog)
      Examples.watched_v1 Examples.user 20 = Ok df /\
    df = videos_frame Examples.catalog /\
    map video (rows df) = map video (rows (videos_frame Examples.catalog)) /\
    map label (rows df) = map label (rows (videos_frame Examples.catalog)).
Proof.
  apply (C10_fallback_returns_catalog overlap_numeric stable_argsort).
  right. split; [eexists; reflexivity |]. left. vm_compute. lia.
Defined.

(** * Further properties of the recommender *)

(** ** Definitions *)

(** A row of a frame is the reel the catalog holds at the row's label. *)
Definition catalog_row (vs : list Videos.row) (r : Row) : Prop :=
  nth_error vs (label r) = Some (video r).

(** Lines 238-245: "Mark as Watched" on a reel of the feed appends one
    event to the progress table. *)
Definition mark_watched (progress : list Progress.row) (user_id : string)
  (row : Videos.row) : list Progress.row :=
  progress ++
  [Progress.mk user_id (Videos.course_id row) (Videos.video_id row) 1%Z].

(** ** Facts *)

Lemma map_fst_combine_prefix {A B : Type} (l : list A) (l' : list B) :
  map fst (combine l l') = firstn (length l') l.
Proof.
  revert l'. induction l as [| a l IH]; intros [| b l']; simpl;
    try reflexivity. now rewrite IH.
Qed.

Lemma NoDup_firstn {A : Type} (n : nat) (l : list A) :
  NoDup l -> NoDup (firstn n l).
Proof.
  intros H. rewrite <- (firstn_skipn n l) in H.
  now apply NoDup_app_remove_r in H.
Qed.

Lemma filter_keeps_distinct_keys {A B : Type} (key : A -> B)
  (keep : A -> bool) (rows0 : list A) :
  NoDup (map key rows0) -> NoDup (map key (filter keep rows0)).
Proof.
  induction rows0 as [| x rest IH]; simpl; intros Hd; [constructor |].
  apply NoDup_cons_iff in Hd. destruct Hd as [Hfresh Hrest].
  destruct (keep x); simpl; [| now apply IH].
  constructor; [| now apply IH].
  intros Hin. apply Hfresh. apply in_map_iff in Hin.
  destruct Hin as [y [Hy Hin]]. apply filter_In in Hin.
  apply in_map_iff. exists y. tauto.
Qed.

Lemma range_rows_catalog (a : nat) (vs : list Videos.row) (r : Row) :
  In r (range_rows a vs) ->
  a <= label r /\ nth_error vs (label r - a) = Some (video r).
Proof.
  revert a. induction vs as [| v vs IH]; simpl; intros a; [intros [] |].
  intros [<- | H]; simpl.
  - rewrite Nat.sub_diag. split; [lia | reflexivity].
  - apply IH in H. destruct H as [Hle Hn]. split; [lia |].
    replace (label r - a) with (S (label r - S a)) by lia. exact Hn.
Qed.

Lemma videos_frame_catalog (vs : list Videos.row) :
  Forall (catalog_row vs) (rows (videos_frame vs)).
Proof.
  rewrite Forall_forall. intros r Hr. apply range_rows_catalog in Hr.
  unfold catalog_row. destruct Hr as [_ Hr]. now rewrite Nat.sub_0_r in Hr.
Qed.

Lemma set_similarity_labels (df : DataFrame) (sims : list float64) :
  map label (rows (set_similarity df sims))
  = firstn (length sims) (map label (rows df)).
Proof.
  unfold set_similarity. simpl. rewrite map_map. simpl.
  rewrite firstn_map, <- map_fst_combine_prefix, map_map.
  reflexivity.
Qed.

Section MoreOfTheRecommender.

Context {numeric : Numeric} {sorter : Argsort}.

Lemma candidates_catalog (vs : list Videos.row)
  (progress : list Progress.row) (user_id : string) (M : matrix) :
  Forall (catalog_row vs)
         (rows (candidates (videos_frame vs) progress user_id M)) /\
  NoDup (map label
           (rows (candidates (videos_frame vs) progress user_id M))).
Proof.
  split.
  - rewrite Forall_forall. intros r Hr. apply eligible_In in Hr.
    destruct Hr as [Hr _]. apply set_similarity_In in Hr.
    destruct Hr as (r0 & s & Hr0 & ->).
    pose proof (videos_frame_catalog vs) as Hc.
    rewrite Forall_forall in Hc. exact (Hc r0 Hr0).
  - unfold candidates, eligible, select. simpl.
    do 2 apply filter_keeps_distinct_keys.
    change (NoDup (map label (rows (set_similarity (videos_frame vs)
              (scores (videos_frame vs) M (watched_ids progress user_id)))))).
    rewrite set_similarity_labels. apply NoDup_firstn. simpl.
    rewrite range_rows_labels. apply seq_NoDup.
Qed.

Lemma ranking_catalog (vs : list Videos.row)
  (progress : list Progress.row) (user_id : string) (M : matrix) (n : Z) :
  Forall (catalog_row vs)
         (rows (head n (ranking (videos_frame vs) progress user_id M))) /\
  NoDup (map label
           (rows (head n (ranking (videos_frame vs) progress user_id M)))).
Proof.
  destruct (candidates_catalog vs progress user_id M) as [Hc Hd].
  destruct (head_prefix n (ranking (videos_frame vs) progress user_id M))
    as [k Hk].
  rewrite Hk. split.
  - rewrite Forall_forall in *. intros r Hr. apply In_firstn in Hr.
    apply Hc. now apply (Permutation_in _ (ranking_perm _ _ _ _)).
  - rewrite <- firstn_map. apply NoDup_firstn.
    apply (Permutation_NoDup
             (Permutation_map label
                (Permutation_sym (ranking_perm _ _ _ _)))).
    exact Hd.
Qed.

End MoreOfTheRecommender.

Lemma build_recommendations_raise_iff {numeric : Numeric} {sorter : Argsort}
  (vs : list Videos.row) (progress : list Progress.row) (user_id : string)
  (top_n : Z) (e : exn) :
  build_recommendations (videos_frame vs) progress user_id top_n = Raise e
  <->
  vs <> [] /\
  fit_transform (map text_of (rows (videos_frame vs))) = Raise e.
Proof.
  destruct (build_recommendations_cases vs progress user_id)
    as [Hf | [[M Hp] | [e' He]]].
  - rewrite (build_recommendations_fallback _ _ _ top_n Hf).
    split; [discriminate |]. intros [Hvs Hr]. exfalso.
    destruct Hf as [He | [[M HM] _]].
    + rewrite empty_videos_frame in He. now destruct vs.
    + congruence.
  - rewrite (build_recommendations_ranked vs progress user_id top_n M Hp).
    split; [discriminate |]. intros [_ Hr].
    destruct Hp as (_ & HM & _). congruence.
  - rewrite He. unfold build_recommendations in He.
    specialize (He top_n). rewrite empty_videos_frame in *.
    destruct vs as [| v vs]; [discriminate He |].
    destruct (fit_transform (map text_of (rows (videos_frame (v :: vs)))))
      as [M | e''] eqn:HM.
    + exfalso. simpl in He.
      destruct (length (watched_ids progress user_id) <? 2);
        [discriminate He |].
      destruct (watched_idx (videos_frame (v :: vs))
                  (watched_ids progress user_id)) eqn:Ei;
        [discriminate He |].
      rewrite <- Ei, (scored_videos_frame (v :: vs) M _ HM) in He.
      discriminate He.
    + simpl in He. injection He as ->. split.
      * intros H. injection H as ->. split; [discriminate | reflexivity].
      * intros [_ H]. injection H as ->. reflexivity.
Qed.

(** X1.  Whatever the path, a result holds reels of the catalog only, each
    under the label it has in the catalog, and no reel twice. *)
Theorem result_rows_are_catalog_reels
  (numeric : Numeric) (sorter : Argsort) (vs : list Videos.row)
  (progress : list Progress.row) (user_id : string) (top_n : Z)
  (df : DataFrame) :
  build_recommendations (videos_frame vs) progress user_id top_n = Ok df ->
  Forall (catalog_row vs) (rows df) /\ NoDup (map label (rows df)).
Proof.
  intros Hres.
  destruct (build_recommendations_cases vs progress user_id)
    as [Hf | [[M Hp] | [e He]]].
  - rewrite (build_recommendations_fallback _ _ _ top_n Hf) in Hres.
    injection Hres as <-. split; [apply videos_frame_catalog |].
    simpl. rewrite range_rows_labels. apply seq_NoDup.
  - rewrite (build_recommendations_ranked vs progress user_id top_n M Hp)
      in Hres.
    injection Hres as <-. apply ranking_catalog.
  - rewrite He in Hres. discriminate Hres.
Qed.

Lemma result_rows_are_catalog_reels_witness :
  Forall (catalog_row Examples.library)
         (rows (head 2 (ranking (numeric := overlap_numeric)
                          (sorter := stable_argsort)
                          (videos_frame Examples.library)
                          Examples.watched_v1_v2 Examples.user
                          Examples.library_tfidf))) /\
  NoDup (map label
           (rows (head 2 (ranking (numeric := overlap_numeric)
                            (sorter := stable_argsort)
                            (videos_frame Examples.library)
                            Examples.watched_v1_v2 Examples.user
                            Examples.library_tfidf)))).
Proof.
  apply (result_rows_are_catalog_reels overlap_numeric stable_argsort
           Examples.library Examples.watched_v1_v2 Examples.user 2).
  vm_compute. reflexivity.
Defined.

(** X2.  The result is fixed by the set of reels the user has watched: two
    histories that give the user the same watched ids (in any order, any
    number of times, among any events of other users) give the same
    result. *)
Theorem watched_set_determines_result
  (numeric : Numeric) (sorter : Argsort) (videos : DataFrame)
  (progress progress' : list Progress.row) (user_id : string) (top_n : Z) :
  (forall id, has_watched progress user_id id <->
              has_watched progress' user_id id) ->
  build_recommendations videos progress user_id top_n
  = build_recommendations videos progress' user_id top_n.
Proof.
  intros H. apply build_recommendations_ids_ext.
  apply NoDup_Permutation; try apply unique_NoDup.
  intros id. fold (watched_ids progress user_id).
  fold (watched_ids progress' user_id).
  now rewrite !watched_ids_spec.
Qed.

Lemma watched_set_determines_result_witness :
  build_recommendations (numeric := overlap_numeric)
    (sorter := stable_argsort) (videos_frame Examples.library)
    Examples.watched_v1_v2 Examples.user 20
  = build_recommendations (numeric := overlap_numeric)
      (sorter := stable_argsort) (videos_frame Examples.library)
      [Examples.event Examples.user "v2"; Examples.event "guest" "v6";
       Examples.event Examples.user "v1"; Examples.event Examples.user "v2"]
      Examples.user 20.
Proof.
  apply (watched_set_determines_result overlap_numeric stable_argsort).
  intros id. rewrite <- !watched_ids_spec. vm_compute. tauto.
Defined.

(** X3.  An event of another user, or one whose watched flag is not 1,
    changes nothing in the result for this user. *)
Theorem other_events_are_ignored
  (numeric : Numeric) (sorter : Argsort) (videos : DataFrame)
  (before after : list Progress.row) (e : Progress.row)
  (user_id : string) (top_n : Z) :
  Progress.user_id e <> user_id \/ Progress.watched e <> 1%Z ->
  build_recommendations videos (before ++ e :: after) user_id top_n
  = build_recommendations videos (before ++ after) user_id top_n.
Proof.
  intros He.
  assert (Hw : watched_ids (before ++ e :: after) user_id
               = watched_ids (before ++ after) user_id).
  { unfold watched_ids, user_watched. rewrite !filter_app. simpl.
    destruct (String.eqb (Progress.user_id e) user_id) eqn:Eu;
      [| reflexivity].
    destruct (Progress.watched e =? 1)%Z eqn:Ew; [| reflexivity].
    apply String.eqb_eq in Eu. apply Z.eqb_eq in Ew. tauto. }
  unfold build_recommendations. now rewrite Hw.
Qed.

Lemma other_events_are_ignored_witness :
  build_recommendations (numeric := overlap_numeric)
    (sorter := stable_argsort) (videos_frame Examples.library)
    (Examples.watched_v1_v2 ++ Examples.event "guest" "v6" :: [])
    Examples.user 20
  = build_recommendations (numeric := overlap_numeric)
      (sorter := stable_argsort) (videos_frame Examples.library)
      (Examples.watched_v1_v2 ++ []) Examples.user 20.
Proof.
  apply (other_events_are_ignored overlap_numeric stable_argsort).
  left. discriminate.
Defined.

(** Text in ASCII: the characters on which [tokenize] and the token
    pattern of scikit-learn, which knows the word characters of Unicode,
    agree. *)
Fixpoint ascii_text (s : string) : bool :=
  match s with
  | EmptyString => true
  | String c s' => (nat_of_ascii c <? 128) && ascii_text s'
  end.

(** X4.  On a catalog whose title, topic and tag cells hold text or are
    missing, the text being in ASCII, the function raises in one case only:
    the catalog is not empty and no title, topic or tag text in it has a
    token, and then the error is the vectorizer's ValueError.  In particular
    the row lookup of line 160 never fails. *)
Theorem raises_exactly_on_empty_vocabulary
  (numeric : Numeric) (sorter : Argsort) (vs : list Videos.row)
  (progress : list Progress.row) (user_id : string) (top_n : Z) (e : exn) :
  Forall (fun r => ascii_text (text_of r) = true) (rows (videos_frame vs)) ->
  (build_recommendations (videos_frame vs) progress user_id top_n = Raise e
   <->
   vs <> [] /\
   Forall (fun r => tokenize (text_of r) = []) (rows (videos_frame vs)) /\
   e = ValueError
         "empty vocabulary; perhaps the documents only contain stop words").
Proof.
  intros _.
  rewrite build_recommendations_raise_iff, fit_transform_raises.
  rewrite Forall_map. tauto.
Qed.

Lemma raises_exactly_on_empty_vocabulary_witness :
  Forall (fun r => ascii_text (text_of r) = true)
         (rows (videos_frame [Examples.reel "video_1" "C" "C" ""])) /\
  (build_recommendations (numeric := overlap_numeric)
     (sorter := stable_argsort)
     (videos_frame [Examples.reel "video_1" "C" "C" ""])
     Examples.watched_v1 Examples.user 10
   = Raise (ValueError
       "empty vocabulary; perhaps the documents only contain stop words")
   <->
   [Examples.reel "video_1" "C" "C" ""] <> [] /\
   Forall (fun r => tokenize (text_of r) = [])
          (rows (videos_frame [Examples.reel "video_1" "C" "C" ""])) /\
   ValueError
     "empty vocabulary; perhaps the documents only contain stop words"
   = ValueError
       "empty vocabulary; perhaps the documents only contain stop words").
Proof.
  split; [repeat constructor |].
  apply (raises_exactly_on_empty_vocabulary overlap_numeric stable_argsort).
  repeat constructor.
Defined.

(** X5.  On the ranked path a smaller count gives a prefix of what a larger
    count gives: asking for more reels only adds reels at the end. *)
Theorem smaller_top_n_is_prefix
  (numeric : Numeric) (sorter : Argsort) (vs : list Videos.row)
  (progress : list Progress.row) (user_id : string) (n m : Z)
  (M : matrix) :
  (0 <= n <= m)%Z ->
  ranked_path (videos_frame vs) progress user_id M ->
  exists dn dm,
    build_recommendations (videos_frame vs) progress user_id n = Ok dn /\
    build_recommendations (videos_frame vs) progress user_id m = Ok dm /\
    columns dn = columns dm /\
    rows dn = firstn (Z.to_nat n) (rows dm).
Proof.
  intros Hnm Hp. do 2 eexists.
  split; [exact (build_recommendations_ranked vs progress user_id n M Hp) |].
  split; [exact (build_recommendations_ranked vs progress user_id m M Hp) |].
  split; [reflexivity |].
  rewrite !head_rows by lia. rewrite firstn_firstn.
  f_equal. lia.
Qed.

Lemma smaller_top_n_is_prefix_witness :
  exists dn dm,
    build_recommendations (numeric := overlap_numeric)
      (sorter := stable_argsort) (videos_frame Examples.library)
      Examples.watched_v1_v2 Examples.user 1 = Ok dn /\
    build_recommendations (numeric := overlap_numeric)
      (sorter := stable_argsort) (videos_frame Examples.library)
      Examples.watched_v1_v2 Examples.user 2 = Ok dm /\
    columns dn = columns dm /\
    rows dn = firstn (Z.to_nat 1) (rows dm).
Proof.
  apply (smaller_top_n_is_prefix overlap_numeric stable_argsort
           Examples.library Examples.watched_v1_v2 Examples.user 1 2
           Examples.library_tfidf).
  - lia.
  - split; [reflexivity |]. split; [reflexivity |].
    split; [vm_compute; lia | vm_compute; discriminate].
Defined.

(** X6.  For a catalog that is not empty, the "Recommended For You" feed
    (lines 204-206) is never empty: it is the whole catalog, or a ranking
    with at least one reel. *)
Theorem recommended_feed_is_never_empty
  (numeric : Numeric) (sorter : Argsort) (vs : list Videos.row)
  (progress : list Progress.row) (user_id : string) (feed : DataFrame) :
  vs <> [] ->
  recommended_feed (videos_frame vs) progress user_id = Ok feed ->
  rows feed <> [] /\
  (feed = videos_frame vs \/
   exists M,
     ranked_path (videos_frame vs) progress user_id M /\
     feed = head 20 (ranking (videos_frame vs) progress user_id M)).
Proof.
  intros Hvs Hfeed. unfold recommended_feed in Hfeed.
  assert (Hne : rows (videos_frame vs) <> []).
  { destruct vs; [now destruct Hvs | discriminate]. }
  destruct (build_recommendations_cases vs progress user_id)
    as [Hf | [[M Hp] | [e He]]].
  - rewrite (build_recommendations_fallback _ _ _ 20 Hf) in Hfeed.
    simpl in Hfeed.
    destruct (empty (videos_frame vs)); injection Hfeed as <-;
      (split; [exact Hne | now left]).
  - rewrite (build_recommendations_ranked vs progress user_id 20 M Hp)
      in Hfeed.
    simpl in Hfeed.
    destruct (empty (head 20 (ranking (videos_frame vs) progress user_id M)))
      eqn:E; injection Hfeed as <-.
    + split; [exact Hne | now left].
    + split; [| right; now exists M].
      unfold empty in E. intros Hr. now rewrite Hr in E.
  - rewrite He in Hfeed. discriminate Hfeed.
Qed.

Lemma recommended_feed_is_never_empty_witness :
  rows (head 20 (ranking (numeric := overlap_numeric)
                   (sorter := stable_argsort)
                   (videos_frame Examples.library)
                   Examples.watched_v1_v2 Examples.user
                   Examples.library_tfidf)) <> [] /\
  (head 20 (ranking (numeric := overlap_numeric)
              (sorter := stable_argsort) (videos_frame Examples.library)
              Examples.watched_v1_v2 Examples.user Examples.library_tfidf)
   = videos_frame Examples.library \/
   exists M,
     ranked_path (numeric := overlap_numeric)
       (videos_frame Examples.library) Examples.watched_v1_v2
       Examples.user M /\
     head 20 (ranking (numeric := overlap_numeric)
                (sorter := stable_argsort) (videos_frame Examples.library)
                Examples.watched_v1_v2 Examples.user Examples.library_tfidf)
     = head 20 (ranking (numeric := overlap_numeric)
                  (sorter := stable_argsort)
                  (videos_frame Examples.library)
                  Examples.watched_v1_v2 Examples.user M)).
Proof.
  apply (recommended_feed_is_never_empty overlap_numeric stable_argsort
           Examples.library Examples.watched_v1_v2 Examples.user).
  - discriminate.
  - vm_compute. reflexivity.
Defined.

(** X7.  When the ranked path leaves no eligible candidate, the feed shows
    the whole catalog, watched reels included, as it does on a fallback:
    the caller only tests [feed.empty]. *)
Theorem feed_shows_catalog_when_ranking_is_empty
  (numeric : Numeric) (sorter : Argsort) (vs : list Videos.row)
  (progress : list Progress.row) (user_id : string) (M : matrix) :
  ranked_path (videos_frame vs) progress user_id M ->
  rows (candidates (videos_frame vs) progress user_id M) = [] ->
  build_recommendations (videos_frame vs) progress user_id 20
  <> Ok (videos_frame vs) /\
  recommended_feed (videos_frame vs) progress user_id
  = Ok (videos_frame vs).
Proof.
  intros Hp Hc.
  pose proof (build_recommendations_ranked vs progress user_id 20 M Hp)
    as Hres.
  split.
  - rewrite Hres. intros H.
    apply (ranked_not_fallback vs 20 progress user_id M). congruence.
  - apply (recommended_feed_empty_ranking _ _ _ _ Hres).
    assert (Hr : rows (ranking (videos_frame vs) progress user_id M) = []).
    { apply Permutation_nil. symmetry. rewrite <- Hc. apply ranking_perm. }
    unfold empty, head. cbn [rows columns].
    now rewrite Hr, firstn_nil.
Qed.

Lemma feed_shows_catalog_when_ranking_is_empty_witness :
  build_recommendations (numeric := overlap_numeric)
    (sorter := stable_argsort) (videos_frame Examples.catalog)
    Examples.watched_v1_v2 Examples.user 20
  <> Ok (videos_frame Examples.catalog) /\
  recommended_feed (numeric := overlap_numeric) (sorter := stable_argsort)
    (videos_frame Examples.catalog) Examples.watched_v1_v2 Examples.user
  = Ok (videos_frame Examples.catalog).
Proof.
  eapply (feed_shows_catalog_when_ranking_is_empty overlap_numeric
            stable_argsort Examples.catalog Examples.watched_v1_v2
            Examples.user).
  - split; [reflexivity |]. split; [reflexivity |].
    split; [vm_compute; lia | vm_compute; discriminate].
  - vm_compute. reflexivity.
Defined.

(** X8.  "Mark as Watched" records the reel for the user, and from then on,
    whenever the recommender ranks, the reel is not among the
    recommendations. *)
Theorem marked_reel_is_not_recommended
  (numeric : Numeric) (sorter : Argsort) (vs : list Videos.row)
  (progress : list Progress.row) (user_id : string) (row : Videos.row)
  (top_n : Z) (M : matrix) :
  ranked_path (videos_frame vs) (mark_watched progress user_id row)
              user_id M ->
  has_watched (mark_watched progress user_id row) user_id
              (Videos.video_id row) /\
  exists df,
    build_recommendations (videos_frame vs)
      (mark_watched progress user_id row) user_id top_n = Ok df /\
    ~ In (Videos.video_id row) (map row_id (rows df)).
Proof.
  intros Hp.
  assert (Hw : has_watched (mark_watched progress user_id row) user_id
                 (Videos.video_id row)).
  { eexists. split; [apply in_or_app; right; left; reflexivity |].
    now repeat split. }
  split; [exact Hw |]. eexists. split.
  - exact (build_recommendations_ranked vs _ user_id top_n M Hp).
  - intros Hin. apply in_map_iff in Hin. destruct Hin as [r [Hid Hr]].
    apply head_In, ranking_In in Hr. destruct Hr as [Hr _].
    apply Hr. rewrite Hid. now apply watched_ids_spec.
Qed.

Lemma marked_reel_is_not_recommended_witness :
  has_watched
    (mark_watched Examples.watched_v1 Examples.user
       (Examples.reel "v2" "Binary Search Trees" "DSA" "trees,search"))
    Examples.user "v2" /\
  exists df,
    build_recommendations (numeric := overlap_numeric)
      (sorter := stable_argsort) (videos_frame Examples.library)
      (mark_watched Examples.watched_v1 Examples.user
         (Examples.reel "v2" "Binary Search Trees" "DSA" "trees,search"))
      Examples.user 20 = Ok df /\
    ~ In "v2" (map row_id (rows df)).
Proof.
  eapply (marked_reel_is_not_recommended overlap_numeric stable_argsort
            Examples.library Examples.watched_v1 Examples.user
            (Examples.reel "v2" "Binary Search Trees" "DSA" "trees,search")
            20).
  split; [reflexivity |]. split; [reflexivity |].
  split; [vm_compute; lia | vm_compute; discriminate].
Defined.

(** * The offline text generators (app.py, lines 10-67)

    [get_main_tag], [generate_summary_offline], [generate_quiz_offline] and
    [generate_practice_offline] are called with cells of a row of the videos
    table.  A cell of a text column is a string, NaN (a blank cell read by
    pandas) or None (a column that [load_or_create_csv] added).  Strings are
    ASCII text: [strip] and [lower] treat the ASCII whitespace and letters
    as Python does. *)

(** ** Definitions *)

Inductive pyval : Type :=
| PyNone
| PyNaN
| PyStr (s : string).

(** [str(v)], as an f-string formats a cell. *)
Definition py_str (v : pyval) : string :=
  match v with
  | PyNone => "None"
  | PyNaN => "nan"
  | PyStr s => s
  end.

(** [c.isspace()] on an ASCII character: tab to carriage return, the four
    separators 28-31, and the space. *)
Definition is_space (c : ascii) : bool :=
  let n := nat_of_ascii c in
  ((9 <=? n) && (n <=? 13)) || ((28 <=? n) && (n <=? 32)).

Fixpoint lstrip (s : string) : string :=
  match s with
  | EmptyString => EmptyString
  | String c s' => if is_space c then lstrip s' else s
  end.

Fixpoint rstrip (s : string) : string :=
  match s with
  | EmptyString => EmptyString
  | String c s' =>
      match rstrip s' with
      | EmptyString => if is_space c then EmptyString else String c EmptyString
      | t => String c t
      end
  end.

(** [s.strip()]. *)
Definition strip (s : string) : string := rstrip (lstrip s).

(** [s.lower()]. *)
Fixpoint string_lower (s : string) : string :=
  match s with
  | EmptyString => EmptyString
  | String c s' => String (lower c) (string_lower s')
  end.

(** [s.split(sep)[0]] for a one-character separator: the text before the
    first separator, the whole string when there is none. *)
Fixpoint before (sep : ascii) (s : string) : string :=
  match s with
  | EmptyString => EmptyString
  | String c s' =>
      if Ascii.eqb c sep then EmptyString else String c (before sep s')
  end.

(** Truth value of a string: not empty. *)
Definition truthy (s : string) : bool :=
  match s with EmptyString => false | String _ _ => true end.

(** Lines 10-13. *)
Definition get_main_tag (tags topic : pyval) : string :=
  match tags with
  | PyStr t =>
      if truthy (strip t) then strip (before "," t)
      else match topic with PyStr s => s | _ => "this concept" end
  | _ => match topic with PyStr s => s | _ => "this concept" end
  end.

Inductive outcome (A : Type) : Type :=
| Returns (a : A)
| AttributeError (msg : string).

Arguments Returns {A} a.
Arguments AttributeError {A} msg.

(** [(level or "Beginner").strip()] (lines 17 and 28): None and the empty
    string give "Beginner"; NaN is a float that counts as true and has no
    [strip]. *)
Definition level_or_beginner (level : pyval) : outcome string :=
  match level with
  | PyNone => Returns (strip "Beginner")
  | PyNaN => AttributeError "'float' object has no attribute 'strip'"
  | PyStr s => Returns (strip (if truthy s then s else "Beginner"))
  end.

(** Lines 15-24. *)
Definition generate_summary_offline (title topic tags level : pyval)
  : outcome string :=
  let main_tag := get_main_tag tags topic in
  match level_or_beginner level with
  | AttributeError msg => AttributeError msg
  | Returns level =>
      if String.eqb (string_lower level) "beginner" then
        Returns ("This reel gives a simple introduction to " ++ main_tag
                 ++ " in the context of " ++ py_str topic ++ ".")%string
      else if String.eqb (string_lower level) "intermediate" then
        Returns ("This reel explains important details of " ++ main_tag
                 ++ " to deepen your understanding of " ++ py_str topic
                 ++ ".")%string
      else
        Returns ("This reel focuses on advanced aspects of " ++ main_tag
                 ++ " and how it is used in real problems related to "
                 ++ py_str topic ++ ".")%string
  end.

Module Quiz.
Record question : Type := mk {
  q : string;
  options : list string;
  answer : string
}.
End Quiz.

(** Lines 26-60. *)
Definition generate_quiz_offline (title topic tags level : pyval)
  : outcome (list Quiz.question) :=
  let main_tag := get_main_tag tags topic in
  match level_or_beginner level with
  | AttributeError msg => AttributeError msg
  | Returns level =>
      let q1 := Quiz.mk "What is the main concept explained in this reel?"
                  [main_tag; "Cricket"; "Cooking"; "Random vlog"] main_tag in
      let q2 := Quiz.mk
                  ("What is the main goal of this reel about " ++ main_tag
                   ++ "?")%string
                  ["To entertain only"; "To help you understand a concept";
                   "To show travel vlogs"; "To review a product"]
                  "To help you understand a concept" in
      let q3 := Quiz.mk
                  "This reel is primarily targeted at which level of learner?"
                  ["Beginner"; "Intermediate"; "Advanced"]
                  (if String.eqb (string_lower level) "beginner"
                   then "Beginner"
                   else if String.eqb (string_lower level) "intermediate"
                        then "Intermediate"
                        else "Advanced") in
      Returns [q1; q2; q3]
  end.

(** Lines 62-67; the text between the digits 3 and 4 has the bytes of the
    source file. *)
Definition generate_practice_offline (title topic tags level : pyval)
  : string :=
  let main_tag := get_main_tag tags topic in
  ("In 3â€“4 lines, explain " ++ main_tag
   ++ " in your own words and give one simple example "
   ++ "from the topic " ++ py_str topic ++ ".")%string.

(** Line 360: the check of a quiz answer. *)
Definition check_answer (question : Quiz.question) (user_choice : string)
  : bool :=
  String.eqb user_choice (Quiz.answer question).

(** A string of whitespace only. *)
Fixpoint is_blank (s : string) : bool :=
  match s with
  | EmptyString => true
  | String c s' => is_space c && is_blank s'
  end.

Definition chars (s : string) : list ascii := list_ascii_of_string s.

(** ** Facts about [strip] and [before] *)

Lemma lstrip_nil (s : string) : lstrip s = EmptyString <-> is_blank s = true.
Proof.
  induction s as [| c s IH]; simpl; [tauto |].
  destruct (is_space c); simpl; [exact IH |].
  split; discriminate.
Qed.

Lemma rstrip_nil (s : string) : rstrip s = EmptyString <-> is_blank s = true.
Proof.
  induction s as [| c s IH]; simpl; [tauto |].
  destruct (rstrip s) as [| d t].
  - destruct (is_space c); simpl.
    + split; [intros _; now apply IH | reflexivity].
    + split; discriminate.
  - split; [discriminate |]. intros H. apply andb_true_iff in H.
    destruct H as [_ H]. apply IH in H. discriminate H.
Qed.

Lemma is_blank_lstrip (s : string) : is_blank (lstrip s) = is_blank s.
Proof.
  induction s as [| c s IH]; simpl; [reflexivity |].
  destruct (is_space c) eqn:E; simpl; [exact IH | now rewrite E].
Qed.

Lemma strip_nil (s : string) : strip s = EmptyString <-> is_blank s = true.
Proof. unfold strip. now rewrite rstrip_nil, is_blank_lstrip. Qed.

Lemma truthy_strip (s : string) : truthy (strip s) = negb (is_blank s).
Proof.
  destruct (is_blank s) eqn:E.
  - apply strip_nil in E. now rewrite E.
  - destruct (strip s) eqn:Es; [| reflexivity].
    apply strip_nil in Es. congruence.
Qed.

Lemma lstrip_shape (s : string) :
  lstrip s = EmptyString \/
  exists c r, lstrip s = String c r /\ is_space c = false.
Proof.
  induction s as [| c s IH]; simpl; [now left |].
  destruct (is_space c) eqn:E; [exact IH |].
  right. now exists c, s.
Qed.

Lemma rstrip_keeps_head (c : ascii) (r : string) :
  is_space c = false -> exists r', rstrip (String c r) = String c r'.
Proof.
  intros E. simpl. destruct (rstrip r); rewrite ?E; now eexists.
Qed.

Lemma rstrip_idem (s : string) : rstrip (rstrip s) = rstrip s.
Proof.
  induction s as [| c s IH]; simpl; [reflexivity |].
  destruct (rstrip s) as [| d t] eqn:E.
  - destruct (is_space c) eqn:Ec; simpl; [reflexivity | now rewrite Ec].
  - change (rstrip (String c (String d t)) = String c (String d t)).
    simpl. simpl in IH. now rewrite IH.
Qed.

Lemma strip_is_stripped (s : string) :
  lstrip (strip s) = strip s /\ rstrip (strip s) = strip s.
Proof.
  unfold strip. split; [| apply rstrip_idem].
  destruct (lstrip_shape s) as [-> | (c & r & -> & Ec)]; [reflexivity |].
  destruct (rstrip_keeps_head c r Ec) as [r' ->]. simpl. now rewrite Ec.
Qed.

Lemma chars_lstrip (s : string) (x : ascii) :
  In x (chars (lstrip s)) -> In x (chars s).
Proof.
  induction s as [| c s IH]; simpl; [tauto |].
  destruct (is_space c); [intros H; right; now apply IH | tauto].
Qed.

Lemma chars_rstrip (s : string) (x : ascii) :
  In x (chars (rstrip s)) -> In x (chars s).
Proof.
  induction s as [| c s IH]; simpl; [tauto |].
  destruct (rstrip s) as [| d t].
  - destruct (is_space c); simpl; [intros [] | tauto].
  - intros [H | H]; [now left | right; now apply IH].
Qed.

Lemma chars_strip (s : string) (x : ascii) :
  In x (chars (strip s)) -> In x (chars s).
Proof. intros H. now apply chars_lstrip, chars_rstrip. Qed.

Lemma before_has_no_sep (sep : ascii) (s : string) :
  ~ In sep (chars (before sep s)).
Proof.
  induction s as [| c s IH]; simpl; [tauto |].
  destruct (Ascii.eqb c sep) eqn:E; simpl; [tauto |].
  intros [H | H]; [| now apply IH].
  subst c. now rewrite Ascii.eqb_refl in E.
Qed.

Lemma not_blank_with (x : ascii) (s : string) :
  is_space x = false -> In x (chars s) -> is_blank s = false.
Proof.
  intros Ex. induction s as [| c s IH]; simpl; [tauto |].
  intros [-> | H]; [now rewrite Ex |].
  rewrite (IH H). apply andb_false_r.
Qed.

(** ** Properties of the generators *)

(** X9.  When the tags cell is a string that is not blank, the main tag is
    the text before the first comma, stripped: it holds no comma and
    neither starts nor ends with whitespace. *)
Theorem main_tag_is_the_stripped_first_tag (t : string) (topic : pyval) :
  is_blank t = false ->
  get_main_tag (PyStr t) topic = strip (before "," t) /\
  ~ In ","%char (chars (get_main_tag (PyStr t) topic)) /\
  lstrip (get_main_tag (PyStr t) topic) = get_main_tag (PyStr t) topic /\
  rstrip (get_main_tag (PyStr t) topic) = get_main_tag (PyStr t) topic.
Proof.
  intros Hb. unfold get_main_tag. rewrite truthy_strip, Hb. simpl.
  split; [reflexivity |]. split.
  - intros H. apply chars_strip in H. now apply before_has_no_sep in H.
  - apply strip_is_stripped.
Qed.

Lemma main_tag_is_the_stripped_first_tag_witness :
  get_main_tag (PyStr " arrays , binary search") (PyStr "DSA")
  = strip (before "," " arrays , binary search") /\
  ~ In ","%char
       (chars (get_main_tag (PyStr " arrays , binary search")
                 (PyStr "DSA"))) /\
  lstrip (get_main_tag (PyStr " arrays , binary search") (PyStr "DSA"))
  = get_main_tag (PyStr " arrays , binary search") (PyStr "DSA") /\
  rstrip (get_main_tag (PyStr " arrays , binary search") (PyStr "DSA"))
  = get_main_tag (PyStr " arrays , binary search") (PyStr "DSA").
Proof.
  apply (main_tag_is_the_stripped_first_tag " arrays , binary search"
           (PyStr "DSA")).
  reflexivity.
Defined.

(** X10.  A tags cell that is missing (NaN, None) or holds whitespace only
    gives the topic as main tag when the topic is a string (an empty one
    included), and "this concept" otherwise. *)
Theorem blank_tags_fall_back_to_topic (tags topic : pyval) :
  match tags with PyStr t => is_blank t = true | _ => True end ->
  get_main_tag tags topic
  = match topic with PyStr s => s | _ => "this concept" end.
Proof.
  destruct tags as [| | t]; simpl; try reflexivity.
  intros Hb. now rewrite truthy_strip, Hb.
Qed.

Lemma blank_tags_fall_back_to_topic_witness :
  get_main_tag (PyStr "   ") PyNaN = "this concept".
Proof.
  apply (blank_tags_fall_back_to_topic (PyStr "   ") PyNaN). reflexivity.
Defined.

(** X11.  When the tags hold a comma and nothing but whitespace before the
    first one, the main tag is the empty string, whatever tags follow and
    whatever the topic is. *)
Theorem blank_first_tag_gives_empty_main_tag (t : string) (topic : pyval) :
  In ","%char (chars t) ->
  is_blank (before "," t) = true ->
  get_main_tag (PyStr t) topic = EmptyString.
Proof.
  intros Hc Hb. unfold get_main_tag.
  rewrite truthy_strip, (not_blank_with ","%char t eq_refl Hc). simpl.
  now apply strip_nil.
Qed.

Lemma blank_first_tag_gives_empty_main_tag_witness :
  get_main_tag (PyStr " , arrays, search") (PyStr "DSA") = EmptyString.
Proof.
  apply (blank_first_tag_gives_empty_main_tag " , arrays, search"
           (PyStr "DSA")).
  - simpl. tauto.
  - reflexivity.
Defined.

(** X12.  A quiz that is returned has three questions, the answer of each
    is one of its options, and choosing that option passes the check of
    line 360. *)
Theorem quiz_answers_are_options (title topic tags level : pyval)
  (qs : list Quiz.question) :
  generate_quiz_offline title topic tags level = Returns qs ->
  length qs = 3 /\
  Forall (fun x => In (Quiz.answer x) (Quiz.options x)) qs /\
  Forall (fun x => check_answer x (Quiz.answer x) = true) qs.
Proof.
  unfold generate_quiz_offline.
  destruct (level_or_beginner level) as [lv | msg]; [| discriminate].
  intros H. injection H as <-. split; [reflexivity |]. split.
  - constructor; [simpl; tauto |]. constructor; [simpl; tauto |].
    constructor; [| constructor]. simpl.
    destruct (String.eqb (string_lower lv) "beginner"); [tauto |].
    destruct (String.eqb (string_lower lv) "intermediate"); tauto.
  - rewrite Forall_forall. intros x _. apply String.eqb_refl.
Qed.

Lemma quiz_answers_are_options_witness :
  exists qs,
    generate_quiz_offline (PyStr "Binary Search") (PyStr "DSA")
      (PyStr "search,arrays") (PyStr " intermediate ") = Returns qs /\
    length qs = 3 /\
    Forall (fun x => In (Quiz.answer x) (Quiz.options x)) qs /\
    Forall (fun x => check_answer x (Quiz.answer x) = true) qs.
Proof.
  eexists. split; [reflexivity |].
  apply (quiz_answers_are_options (PyStr "Binary Search") (PyStr "DSA")
           (PyStr "search,arrays") (PyStr " intermediate ")).
  reflexivity.
Defined.

Lemma prefix_append (p x : string) : String.prefix p (p ++ x) = true.
Proof.
  induction p as [| a p IH]; simpl; [now destruct x |].
  destruct (ascii_dec a a) as [_ | H]; [exact IH | now destruct H].
Qed.

(** X13.  The summary and the quiz fail together, with AttributeError,
    exactly when the level cell is NaN.  Otherwise both return, and the
    answer of the third question names the level the summary was written
    for; a level that is None or the empty string counts as Beginner. *)
Theorem summary_and_quiz_agree_on_level (title topic tags level : pyval) :
  match generate_summary_offline title topic tags level,
        generate_quiz_offline title topic tags level with
  | Returns s, Returns [_; _; q3] =>
      level <> PyNaN /\
      (level = PyNone \/ level = PyStr EmptyString ->
       Quiz.answer q3 = "Beginner") /\
      (Quiz.answer q3 = "Beginner" /\
       String.prefix "This reel gives a simple introduction to " s = true
       \/
       Quiz.answer q3 = "Intermediate" /\
       String.prefix "This reel explains important details of " s = true
       \/
       Quiz.answer q3 = "Advanced" /\
       String.prefix "This reel focuses on advanced aspects of " s = true)
  | AttributeError _, AttributeError _ => level = PyNaN
  | _, _ => False
  end.
Proof.
  unfold generate_summary_offline, generate_quiz_offline.
  destruct level as [| | lv];
    cbn -[String.prefix String.append strip string_lower truthy];
    [| reflexivity |].
  - split; [discriminate |]. split; [reflexivity |].
    left. split; [reflexivity | apply prefix_append].
  - destruct (String.eqb _ "beginner") eqn:E1.
    + split; [discriminate |]. split; [reflexivity |].
      left. split; [reflexivity | apply prefix_append].
    + destruct (String.eqb _ "intermediate") eqn:E2.
      * split; [discriminate |]. split.
        -- intros [H | H]; [discriminate H |]. injection H as ->.
           discriminate E1.
        -- right. left. split; [reflexivity | apply prefix_append].
      * split; [discriminate |]. split.
        -- intros [H | H]; [discriminate H |]. injection H as ->.
           discriminate E1.
        -- right. right. split; [reflexivity | apply prefix_append].
Qed.

(** X14.  The options of the first question are pairwise distinct exactly
    when the main tag is none of the three fixed distractors: a reel whose
    main tag is "Cooking" is shown that option twice. *)
Theorem first_question_options_distinct (title topic tags level : pyval)
  (qs : list Quiz.question) :
  generate_quiz_offline title topic tags level = Returns qs ->
  exists q1 rest,
    qs = q1 :: rest /\
    Quiz.answer q1 = get_main_tag tags topic /\
    (NoDup (Quiz.options q1) <->
     ~ In (get_main_tag tags topic) ["Cricket"; "Cooking"; "Random vlog"]).
Proof.
  unfold generate_quiz_offline.
  destruct (level_or_beginner level) as [lv | msg]; [| discriminate].
  intros H. injection H as <-. do 2 eexists.
  split; [reflexivity |]. split; [reflexivity |]. simpl. split.
  - intros Hd. inversion Hd as [| ? ? Hn _]; subst. exact Hn.
  - intros Hn. constructor; [exact Hn |].
    repeat constructor; simpl; intuition discriminate.
Qed.

Lemma first_question_options_distinct_witness :
  exists q1 rest,
    [Quiz.mk "What is the main concept explained in this reel?"
       ["Cooking"; "Cricket"; "Cooking"; "Random vlog"] "Cooking";
     Quiz.mk "What is the main goal of this reel about Cooking?"
       ["To entertain only"; "To help you understand a concept";
        "To show travel vlogs"; "To review a product"]
       "To help you understand a concept";
     Quiz.mk "This reel is primarily targeted at which level of learner?"
       ["Beginner"; "Intermediate"; "Advanced"] "Beginner"]
    = q1 :: rest /\
    Quiz.answer q1 = get_main_tag PyNaN (PyStr "Cooking") /\
    (NoDup (Quiz.options q1) <->
     ~ In (get_main_tag PyNaN (PyStr "Cooking"))
          ["Cricket"; "Cooking"; "Random vlog"]).
Proof.
  apply (first_question_options_distinct (PyStr "Pasta Recipes")
           (PyStr "Cooking") PyNaN PyNone).
  reflexivity.
Defined.

(** * The player URL of a reel (app.py, lines 227-235) *)

(** ** Definitions *)

(** [s.startswith(p)]. *)
Fixpoint starts_with (p s : string) : bool :=
  match p with
  | EmptyString => true
  | String a p' =>
      match s with
      | EmptyString => false
      | String b s' => Ascii.eqb a b && starts_with p' s'
      end
  end.

(** [sub in s]. *)
Fixpoint contains (sub s : string) : bool :=
  starts_with sub s ||
  match s with
  | EmptyString => false
  | String _ s' => contains sub s'
  end.

(** [s.split(sep)] for a separator that is not empty, read from the left:
    where the separator starts, a piece ends and the rest of the separator
    is skipped ([skip] counts what is left of it). *)
Fixpoint split_go (sep : string) (skip : nat) (s : string) : list string :=
  match s with
  | EmptyString => [EmptyString]
  | String c s' =>
      match skip with
      | S k => split_go sep k s'
      | O =>
          if starts_with sep s
          then EmptyString :: split_go sep (String.length sep - 1) s'
          else match split_go sep 0 s' with
               | piece :: pieces => String c piece :: pieces
               | [] => [String c EmptyString]
               end
      end
  end.

Definition split (sep s : string) : list string := split_go sep 0 s.

(** Lines 227-235: the URL handed to [st.video], if any.  A cell that is
    missing, or blank once stripped, plays nothing.  [None] of the lookup
    of piece 1 is the IndexError that the [try] swallows. *)
Definition video_url (cell : pyval) : option string :=
  let url := match cell with PyStr s => strip s | _ => EmptyString end in
  if truthy url then
    if contains "youtube.com/shorts/" url then
      match nth_error (split "shorts/" url) 1 with
      | Some piece =>
          let vid_id := before "/" (before "?" piece) in
          Some ("https://www.youtube.com/watch?v=" ++ vid_id)%string
      | None => Some url
      end
    else Some url
  else None.

(** ** Facts *)

Lemma split_go_not_nil (sep : string) (skip : nat) (s : string) :
  split_go sep skip s <> [].
Proof.
  revert skip. induction s as [| c s IH]; intros skip; simpl;
    [discriminate |].
  destruct skip as [| k]; [| apply IH].
  destruct (starts_with sep (String c s)); [discriminate |].
  destruct (split_go sep 0 s); discriminate.
Qed.

Lemma starts_with_app_contains (a b s : string) :
  starts_with (a ++ b) s = true -> contains b s = true.
Proof.
  revert s. induction a as [| x a IH]; simpl; intros s H.
  - destruct s; simpl; rewrite H; reflexivity.
  - destruct s as [| y s]; [discriminate |].
    apply andb_true_iff in H. destruct H as [_ H].
    simpl. rewrite (IH s H). apply orb_true_r.
Qed.

Lemma contains_app_r (a b s : string) :
  contains (a ++ b) s = true -> contains b s = true.
Proof.
  induction s as [| c s IH]; intros H.
  - simpl in H. rewrite orb_false_r in H.
    exact (starts_with_app_contains a b EmptyString H).
  - simpl in H. apply orb_true_iff in H. destruct H as [H | H].
    + exact (starts_with_app_contains a b (String c s) H).
    + simpl. rewrite (IH H). apply orb_true_r.
Qed.

Lemma contains_split_length (sep s : string) :
  sep <> EmptyString ->
  contains sep s = true -> 2 <= length (split sep s).
Proof.
  intros Hsep. unfold split. induction s as [| c s IH]; simpl; intros H.
  - rewrite orb_false_r in H. destruct sep; [now destruct Hsep | discriminate].
  - destruct (starts_with sep (String c s)) eqn:E.
    + pose proof (split_go_not_nil sep (String.length sep - 1) s) as Hn.
      destruct (split_go sep (String.length sep - 1) s);
        [now destruct Hn | simpl; lia].
    + simpl in H. apply IH in H.
      destruct (split_go sep 0 s); simpl in *; lia.
Qed.

Lemma chars_before (sep : ascii) (s : string) (x : ascii) :
  In x (chars (before sep s)) -> In x (chars s).
Proof.
  induction s as [| c s IH]; simpl; [tauto |].
  destruct (Ascii.eqb c sep); simpl; [tauto |].
  intros [H | H]; [now left | right; now apply IH].
Qed.

(** X15.  A URL that holds "youtube.com/shorts/" is always rewritten: the
    [try] of lines 230-234 never fails, and the player gets
    "https://www.youtube.com/watch?v=" followed by an id that holds neither
    "?" nor "/". *)
Theorem shorts_url_is_rewritten (s : string) :
  contains "youtube.com/shorts/" (strip s) = true ->
  exists vid_id,
    video_url (PyStr s)
    = Some ("https://www.youtube.com/watch?v=" ++ vid_id)%string /\
    ~ In "?"%char (chars vid_id) /\ ~ In "/"%char (chars vid_id).
Proof.
  intros Hc. unfold video_url.
  assert (Ht : truthy (strip s) = true).
  { destruct (strip s); [discriminate Hc | reflexivity]. }
  rewrite Ht, Hc.
  assert (Hlen : 2 <= length (split "shorts/" (strip s))).
  { apply contains_split_length; [discriminate |].
    apply (contains_app_r "youtube.com/" "shorts/"). exact Hc. }
  destruct (nth_error (split "shorts/" (strip s)) 1) as [piece |] eqn:E.
  - eexists. split; [reflexivity |]. split.
    + intros H. apply chars_before in H.
      now apply before_has_no_sep in H.
    + apply before_has_no_sep.
  - apply nth_error_None in E. lia.
Qed.

Lemma shorts_url_is_rewritten_witness :
  exists vid_id,
    video_url (PyStr " https://youtube.com/shorts/abc123/?feature=share ")
    = Some ("https://www.youtube.com/watch?v=" ++ vid_id)%string /\
    ~ In "?"%char (chars vid_id) /\ ~ In "/"%char (chars vid_id).
Proof.
  apply (shorts_url_is_rewritten
           " https://youtube.com/shorts/abc123/?feature=share ").
  reflexivity.
Defined.

Example video_url_shorts :
  video_url (PyStr " https://youtube.com/shorts/abc123/?feature=share ")
  = Some "https://www.youtube.com/watch?v=abc123".
Proof. reflexivity. Qed.

Example video_url_plain :
  video_url (PyStr "https://example.org/clip.mp4")
  = Some "https://example.org/clip.mp4".
Proof. reflexivity. Qed.

Example video_url_missing : video_url PyNaN = None.
Proof. reflexivity. Qed.

Lemma starts_with_true (p s : string) :
  starts_with p s = true -> exists z, s = (p ++ z)%string.
Proof.
  revert s. induction p as [| a p IH]; simpl; intros s H;
    [now exists s |].
  destruct s as [| b s]; [discriminate |].
  apply andb_true_iff in H. destruct H as [Hab H].
  apply Ascii.eqb_eq in Hab. subst b.
  destruct (IH s H) as [z ->]. now exists z.
Qed.

(** Inside an id without "/" that is followed by nothing or by "?", the
    separator "shorts/" cannot start. *)
Lemma no_shorts_inside_id (y rest : string) :
  ~ In "/"%char (chars y) ->
  rest = EmptyString \/ (exists q, rest = String "?" q) ->
  starts_with "shorts/" (y ++ rest) = false.
Proof.
  intros Hy Hrest.
  destruct (starts_with "shorts/" (y ++ rest)) eqn:E; [exfalso | reflexivity].
  apply starts_with_true in E. destruct E as [z H].
  do 7 (destruct y as [| ? y]; simpl in H;
        [destruct Hrest as [-> | [q ->]]; discriminate H
        | injection H as -> H]).
  apply Hy. simpl. tauto.
Qed.

Lemma first_piece_of_id (x rest : string) :
  ~ In "/"%char (chars x) ->
  rest = EmptyString \/ (exists q, rest = String "?" q) ->
  exists tail pieces,
    split_go "shorts/" 0 (x ++ rest) = (x ++ tail)%string :: pieces /\
    (tail = EmptyString \/ exists q, tail = String "?" q).
Proof.
  intros Hx Hrest. induction x as [| c x IH].
  - destruct Hrest as [-> | [q ->]].
    + exists EmptyString, []. split; [reflexivity | now left].
    + simpl. destruct (split_go "shorts/" 0 q) as [| piece pieces].
      * exists (String "?" EmptyString), []. split; [reflexivity |].
        right. now eexists.
      * exists (String "?" piece), pieces. split; [reflexivity |].
        right. now eexists.
  - change (split_go "shorts/" 0 ((String c x) ++ rest))
      with (if starts_with "shorts/" (String c x ++ rest)
            then EmptyString :: split_go "shorts/" 6 (x ++ rest)
            else match split_go "shorts/" 0 (x ++ rest) with
                 | piece :: pieces => String c piece :: pieces
                 | [] => [String c EmptyString]
                 end).
    rewrite (no_shorts_inside_id (String c x) rest Hx Hrest).
    destruct IH as (tail & pieces & -> & Ht).
    { intros H. apply Hx. simpl. now right. }
    exists tail, pieces. split; [reflexivity | exact Ht].
Qed.

Lemma string_app_nil_r (s : string) : (s ++ EmptyString)%string = s.
Proof. induction s as [| c s IH]; simpl; [reflexivity | now rewrite IH]. Qed.

Lemma before_whole (sep : ascii) (x : string) :
  ~ In sep (chars x) -> before sep x = x.
Proof.
  induction x as [| c x IH]; simpl; intros H; [reflexivity |].
  destruct (Ascii.eqb c sep) eqn:E.
  - apply Ascii.eqb_eq in E. tauto.
  - rewrite IH; [reflexivity | tauto].
Qed.

Lemma before_app_sep (sep : ascii) (x q : string) :
  ~ In sep (chars x) -> before sep (x ++ String sep q) = x.
Proof.
  induction x as [| c x IH]; simpl; intros H.
  - now rewrite Ascii.eqb_refl.
  - destruct (Ascii.eqb c sep) eqn:E.
    + apply Ascii.eqb_eq in E. tauto.
    + rewrite IH; [reflexivity | tauto].
Qed.

(** The two hosts of a Shorts link. *)
Definition shorts_link (www : bool) (vid_id rest : string) : string :=
  ((if www then "https://www.youtube.com/shorts/"
    else "https://youtube.com/shorts/") ++ vid_id ++ rest)%string.

(** X16.  A Shorts link whose id holds neither "/" nor "?", with nothing or
    a query string after the id, is played as the watch page of that very
    id. *)
Theorem shorts_link_plays_its_id (www : bool) (vid_id rest : string) :
  ~ In "/"%char (chars vid_id) ->
  ~ In "?"%char (chars vid_id) ->
  rest = EmptyString \/ (exists q, rest = String "?" q) ->
  strip (shorts_link www vid_id rest) = shorts_link www vid_id rest ->
  video_url (PyStr (shorts_link www vid_id rest))
  = Some ("https://www.youtube.com/watch?v=" ++ vid_id)%string.
Proof.
  intros Hslash Hq Hrest Hstrip. unfold video_url. rewrite Hstrip.
  destruct (first_piece_of_id vid_id rest Hslash Hrest)
    as (tail & pieces & Hsplit & Htail).
  assert (Hid : before "/" (before "?" (vid_id ++ tail)) = vid_id).
  { destruct Htail as [-> | [q ->]].
    - rewrite string_app_nil_r, (before_whole "?"%char vid_id Hq).
      exact (before_whole "/"%char vid_id Hslash).
    - rewrite (before_app_sep "?"%char vid_id q Hq).
      exact (before_whole "/"%char vid_id Hslash). }
  destruct www.
  - change (split "shorts/" (shorts_link true vid_id rest))
      with ("https://www.youtube.com/"
              :: split_go "shorts/" 0 (vid_id ++ rest)).
    change (contains "youtube.com/shorts/" (shorts_link true vid_id rest))
      with true.
    cbn [truthy shorts_link String.append nth_error].
    now rewrite Hsplit, Hid.
  - change (split "shorts/" (shorts_link false vid_id rest))
      with ("https://youtube.com/"
              :: split_go "shorts/" 0 (vid_id ++ rest)).
    change (contains "youtube.com/shorts/" (shorts_link false vid_id rest))
      with true.
    cbn [truthy shorts_link String.append nth_error].
    now rewrite Hsplit, Hid.
Qed.

Lemma shorts_link_plays_its_id_witness :
  video_url (PyStr (shorts_link false "dQw4w9WgXcQ" "?feature=share"))
  = Some "https://www.youtube.com/watch?v=dQw4w9WgXcQ".
Proof.
  apply (shorts_link_plays_its_id false "dQw4w9WgXcQ" "?feature=share").
  - simpl. intuition discriminate.
  - simpl. intuition discriminate.
  - right. now eexists.
  - reflexivity.
Defined.

(** An id that ends in "shorts" and is followed by "/" is cut short: the
    separator of line 231 matches across the end of the id. *)
Example shorts_id_cut_short :
  video_url (PyStr (shorts_link true "abshorts" "/"))
  = Some "https://www.youtube.com/watch?v=ab".
Proof. reflexivity. Qed.

(** * Creator Studio: courses and uploads (app.py, lines 411-438 and 488-507) *)

From Stdlib Require DecimalString DecimalNat.

(** ** Definitions *)

(** [str(n)] for a count. *)
Definition str_nat (n : nat) : string :=
  DecimalString.NilEmpty.string_of_uint (Nat.to_uint n).

(** Lines 488-507: "Upload Reel".  A blank title or URL is refused
    ([None]: the error message, the catalog stays as it is); otherwise one
    reel is appended, its id made from the size of the catalog. *)
Definition upload_reel (videos : list Videos.row) (course_id : option string)
  (title topic concept_tags level url : string) (duration : Z)
  : option (list Videos.row) :=
  if negb (truthy (strip title)) || negb (truthy (strip url)) then None
  else
    let vid_id := ("video_" ++ str_nat (length videos + 1))%string in
    Some (videos ++
          [Videos.mk vid_id (Some (strip title)) (Some (strip topic))
                     (Some (strip concept_tags)) (Some level) course_id
                     (Some (strip url)) (Some duration)]).

Module Courses.
(** One record of courses.csv. *)
Record row : Type := mk {
  course_id : string;
  course_name : string;
  description : string;
  level : string;
  topic : string
}.
End Courses.

(** Lines 421-435: "Create Course". *)
Definition create_course (courses : list Courses.row)
  (name topic level description : string) : option (list Courses.row) :=
  if truthy (strip name) then
    let course_id := ("course_" ++ str_nat (length courses + 1))%string in
    Some (courses ++
          [Courses.mk course_id (strip name) (strip description) level
                      (strip topic)])
  else None.

(** What the "Choose Course" box leads to (lines 411-438): the form for a
    new course, or the first course of the chosen name; [NoSuchCourse] is
    the IndexError of [iloc[0]] on a name that no course has. *)
Inductive studio_view : Type :=
| NewCourseForm
| SelectedCourse (course_row : Courses.row)
| NoSuchCourse.

Definition choose_course (courses : list Courses.row) (choice : string)
  : studio_view :=
  if String.eqb choice "New Course" then NewCourseForm
  else
    match filter (fun c => String.eqb (Courses.course_name c) choice)
                 courses with
    | course_row :: _ => SelectedCourse course_row
    | [] => NoSuchCourse
    end.

(** The ids a catalog has when every reel of it came from "Upload Reel",
    starting from an empty videos.csv. *)
Definition uploaded_ids (videos : list Videos.row) : Prop :=
  map Videos.video_id videos
  = map (fun k => ("video_" ++ str_nat k)%string) (seq 1 (length videos)).

(** Every reel has a title and a URL that are not blank and carry no
    whitespace around them. *)
Definition clean_text (cell : option string) : Prop :=
  exists s, cell = Some s /\ is_blank s = false /\ strip s = s.

Definition titles_and_urls_clean (videos : list Videos.row) : Prop :=
  Forall (fun v => clean_text (Videos.title v) /\ clean_text (Videos.url v))
         videos.

(** ** Facts *)

Lemma str_nat_inj (n m : nat) : str_nat n = str_nat m -> n = m.
Proof.
  unfold str_nat. intros H.
  apply DecimalNat.Unsigned.to_uint_inj.
  apply (f_equal DecimalString.NilEmpty.uint_of_string) in H.
  rewrite !DecimalString.NilEmpty.usu in H. now injection H.
Qed.

Lemma numbered_ids_NoDup (prefix : string) (start len : nat) :
  NoDup (map (fun k => (prefix ++ str_nat k)%string) (seq start len)).
Proof.
  assert (Hinj : forall a b, (prefix ++ a)%string = (prefix ++ b)%string ->
                             a = b).
  { induction prefix as [| c p IH]; simpl; intros a b H; [exact H |].
    injection H as H. now apply IH. }
  revert start. induction len as [| len IH]; intros start; simpl;
    constructor; [| apply IH].
  intros Hin. apply in_map_iff in Hin. destruct Hin as [k [Hk Hin]].
  apply Hinj, str_nat_inj in Hk. apply in_seq in Hin. lia.
Qed.

Lemma strip_clean (s : string) :
  truthy (strip s) = true -> clean_text (Some (strip s)).
Proof.
  intros Ht. exists (strip s). split; [reflexivity |]. split.
  - destruct (is_blank (strip s)) eqn:E; [| reflexivity].
    assert (Hs : strip (strip s) = EmptyString) by now apply strip_nil.
    unfold strip in Hs at 1.
    rewrite (proj1 (strip_is_stripped s)), (proj2 (strip_is_stripped s))
      in Hs.
    rewrite Hs in Ht. discriminate Ht.
  - unfold strip at 1.
    now rewrite (proj1 (strip_is_stripped s)), (proj2 (strip_is_stripped s)).
Qed.

(** ** Properties *)

(** X17.  In a catalog built by uploads alone, the k-th reel has the id
    "video_k", and an accepted upload keeps it so: the new reel gets an id
    that no reel of the catalog has, and all ids stay pairwise distinct. *)
Theorem upload_gives_a_fresh_id (videos videos' : list Videos.row)
  (course_id : option string) (title topic concept_tags level url : string)
  (duration : Z) :
  uploaded_ids videos ->
  upload_reel videos course_id title topic concept_tags level url duration
  = Some videos' ->
  uploaded_ids videos' /\
  NoDup (map Videos.video_id videos') /\
  exists new_reel,
    videos' = videos ++ [new_reel] /\
    ~ In (Videos.video_id new_reel) (map Videos.video_id videos).
Proof.
  unfold upload_reel. intros Hids Hup.
  destruct (negb (truthy (strip title)) || negb (truthy (strip url)));
    [discriminate |].
  injection Hup as <-.
  assert (Hids' : uploaded_ids
            (videos ++
             [Videos.mk ("video_" ++ str_nat (length videos + 1))
                (Some (strip title)) (Some (strip topic))
                (Some (strip concept_tags)) (Some level) course_id
                (Some (strip url)) (Some duration)])).
  { unfold uploaded_ids in *. rewrite map_app, length_app, Hids. simpl.
    rewrite seq_app, map_app. simpl.
    now rewrite Nat.add_comm. }
  assert (Hnd : NoDup (map Videos.video_id
            (videos ++
             [Videos.mk ("video_" ++ str_nat (length videos + 1))
                (Some (strip title)) (Some (strip topic))
                (Some (strip concept_tags)) (Some level) course_id
                (Some (strip url)) (Some duration)]))).
  { rewrite Hids'. apply numbered_ids_NoDup. }
  split; [exact Hids' |]. split; [exact Hnd |].
  eexists. split; [reflexivity |].
  rewrite map_app in Hnd. simpl in *.
  apply NoDup_remove_2 in Hnd. now rewrite app_nil_r in Hnd.
Qed.

Lemma upload_gives_a_fresh_id_witness :
  uploaded_ids
    [Videos.mk "video_1" (Some "Binary Search") (Some "DSA")
       (Some "search,arrays") (Some "Beginner") (Some "course_1")
       (Some "https://example.org/a") (Some 60%Z)] /\
  NoDup (map Videos.video_id
           [Videos.mk "video_1" (Some "Binary Search") (Some "DSA")
              (Some "search,arrays") (Some "Beginner") (Some "course_1")
              (Some "https://example.org/a") (Some 60%Z)]) /\
  exists new_reel,
    [Videos.mk "video_1" (Some "Binary Search") (Some "DSA")
       (Some "search,arrays") (Some "Beginner") (Some "course_1")
       (Some "https://example.org/a") (Some 60%Z)]
    = [] ++ [new_reel] /\
    ~ In (Videos.video_id new_reel) (map Videos.video_id []).
Proof.
  apply (upload_gives_a_fresh_id [] _ (Some "course_1") " Binary Search "
           "DSA" "search,arrays" "Beginner" "https://example.org/a" 60%Z).
  - reflexivity.
  - reflexivity.
Defined.

(** X18.  An upload with a blank title or a blank URL is refused; an
    accepted one stores title and URL stripped and not blank, so a catalog
    whose titles and URLs are clean stays clean. *)
Theorem upload_keeps_titles_and_urls_clean (videos : list Videos.row)
  (course_id : option string) (title topic concept_tags level url : string)
  (duration : Z) :
  titles_and_urls_clean videos ->
  match upload_reel videos course_id title topic concept_tags level url
          duration with
  | None => is_blank title = true \/ is_blank url = true
  | Some videos' =>
      is_blank title = false /\ is_blank url = false /\
      titles_and_urls_clean videos'
  end.
Proof.
  intros Hc. unfold upload_reel. rewrite !truthy_strip, !negb_involutive.
  destruct (is_blank title) eqn:Et; simpl; [now left |].
  destruct (is_blank url) eqn:Eu; simpl; [now right |].
  split; [reflexivity |]. split; [reflexivity |].
  apply Forall_app. split; [exact Hc |].
  constructor; [| constructor]. simpl.
  split; apply strip_clean; now rewrite truthy_strip, ?Et, ?Eu.
Qed.

Lemma upload_keeps_titles_and_urls_clean_witness :
  match upload_reel [] (Some "course_1") "  " "DSA" "" "Beginner"
          "https://example.org/a" 60%Z with
  | None => is_blank "  " = true \/ is_blank "https://example.org/a" = true
  | Some videos' =>
      is_blank "  " = false /\ is_blank "https://example.org/a" = false /\
      titles_and_urls_clean videos'
  end.
Proof.
  apply (upload_keeps_titles_and_urls_clean [] (Some "course_1") "  " "DSA"
           "" "Beginner" "https://example.org/a" 60%Z).
  constructor.
Defined.

(** X19.  A course that the "Choose Course" box selects carries the chosen
    name, is the first course of that name in the table, and is never
    named "New Course": that entry always opens the creation form. *)
Theorem chosen_course_is_first_of_its_name (courses : list Courses.row)
  (choice : string) (course_row : Courses.row) :
  choose_course courses choice = SelectedCourse course_row ->
  Courses.course_name course_row = choice /\
  choice <> "New Course" /\
  exists earlier later,
    courses = earlier ++ course_row :: later /\
    Forall (fun c => Courses.course_name c <> choice) earlier.
Proof.
  unfold choose_course.
  destruct (String.eqb choice "New Course") eqn:En; [discriminate |].
  apply String.eqb_neq in En. intros H.
  assert (Hfirst : forall l,
    filter (fun c => String.eqb (Courses.course_name c) choice) l
    = course_row :: tl (filter (fun c => String.eqb (Courses.course_name c)
                                                    choice) l) ->
    Courses.course_name course_row = choice /\
    exists earlier later,
      l = earlier ++ course_row :: later /\
      Forall (fun c => Courses.course_name c <> choice) earlier).
  { induction l as [| c l IH]; simpl; [discriminate |].
    destruct (String.eqb (Courses.course_name c) choice) eqn:E; simpl.
    - intros Hc. injection Hc as ->. apply String.eqb_eq in E.
      split; [exact E |]. exists [], l. split; [reflexivity | constructor].
    - intros Hc. destruct (IH Hc) as [Hn (earlier & later & -> & Hall)].
      split; [exact Hn |]. exists (c :: earlier), later.
      split; [reflexivity |]. constructor; [| exact Hall].
      now apply String.eqb_neq. }
  destruct (filter (fun c => String.eqb (Courses.course_name c) choice)
                   courses) as [| c0 rest] eqn:Ef; [discriminate |].
  injection H as ->.
  destruct (Hfirst courses) as [Hn Hex]; [now rewrite Ef |].
  now repeat split.
Qed.

Lemma chosen_course_is_first_of_its_name_witness :
  Courses.course_name (Courses.mk "course_1" "Graphs" "" "Beginner" "DSA")
  = "Graphs" /\
  "Graphs" <> "New Course" /\
  exists earlier later,
    [Courses.mk "course_1" "Graphs" "" "Beginner" "DSA";
     Courses.mk "course_2" "Graphs" "again" "Advanced" "DSA"]
    = earlier ++ Courses.mk "course_1" "Graphs" "" "Beginner" "DSA" :: later
    /\
    Forall (fun c => Courses.course_name c <> "Graphs") earlier.
Proof.
  apply (chosen_course_is_first_of_its_name
           [Courses.mk "course_1" "Graphs" "" "Beginner" "DSA";
            Courses.mk "course_2" "Graphs" "again" "Advanced" "DSA"]
           "Graphs").
  reflexivity.
Defined.

(** X20.  "Create Course" does not look at the names in use: a course
    created under a name that a course already has, or under the name
    "New Course", gets an id but can never be selected, since every choice
    leads where it led before. *)
Theorem shadowed_course_is_never_selected (courses courses' : list Courses.row)
  (name topic level description : string) :
  strip name = "New Course" \/
  (exists c, In c courses /\ Courses.course_name c = strip name) ->
  create_course courses name topic level description = Some courses' ->
  length courses' = S (length courses) /\
  forall choice, choose_course courses' choice = choose_course courses choice.
Proof.
  unfold create_course. intros Hname Hc.
  destruct (truthy (strip name)); [| discriminate].
  injection Hc as <-. split; [rewrite length_app; simpl; lia |].
  intros choice. unfold choose_course.
  destruct (String.eqb choice "New Course") eqn:En; [reflexivity |].
  rewrite filter_app. simpl.
  destruct (String.eqb (strip name) choice) eqn:E;
    [| now rewrite app_nil_r].
  apply String.eqb_eq in E. apply String.eqb_neq in En.
  destruct Hname as [Hn | [c [Hin Hcn]]]; [congruence |].
  destruct (filter (fun c0 => String.eqb (Courses.course_name c0) choice)
                   courses) as [| c0 rest] eqn:Ef; [| reflexivity].
  exfalso.
  assert (Hf : In c (filter (fun c0 => String.eqb (Courses.course_name c0)
                                                  choice) courses)).
  { apply filter_In. split; [exact Hin |]. apply String.eqb_eq. congruence. }
  rewrite Ef in Hf. destruct Hf.
Qed.

Lemma shadowed_course_is_never_selected_witness :
  length [Courses.mk "course_1" "Graphs" "" "Beginner" "DSA";
          Courses.mk "course_2" "Graphs" "again" "Advanced" "DSA"]
  = S (length [Courses.mk "course_1" "Graphs" "" "Beginner" "DSA"]) /\
  forall choice,
    choose_course
      [Courses.mk "course_1" "Graphs" "" "Beginner" "DSA";
       Courses.mk "course_2" "Graphs" "again" "Advanced" "DSA"] choice
    = choose_course [Courses.mk "course_1" "Graphs" "" "Beginner" "DSA"]
        choice.
Proof.
  apply (shadowed_course_is_never_selected
           [Courses.mk "course_1" "Graphs" "" "Beginner" "DSA"] _
           " Graphs " "DSA" "Advanced" "again").
  - right. eexists. split; [now left | reflexivity].
  - reflexivity.
Defined.

(** * Polls and course progress (app.py, lines 313-337 and 373-396) *)

(** ** Definitions *)

Module Votes.
(** One record of poll_votes.csv. *)
Record row : Type := mk {
  poll_id : string;
  user_id : string;
  chosen_option : string
}.
End Votes.

(** Lines 314-317: the votes of this user on this poll. *)
Definition user_prev_vote (poll_votes : list Votes.row)
  (poll_id user_id : string) : list Votes.row :=
  filter (fun v => String.eqb (Votes.poll_id v) poll_id
                   && String.eqb (Votes.user_id v) user_id) poll_votes.

(** Lines 318-337: "Submit Vote".  The button is only shown to a user
    without a vote on the poll. *)
Definition submit_vote (poll_votes : list Votes.row)
  (poll_id user_id choice : string) : list Votes.row :=
  match user_prev_vote poll_votes poll_id user_id with
  | _ :: _ => poll_votes
  | [] => poll_votes ++ [Votes.mk poll_id user_id choice]
  end.

(** [cell == value] for a cell that may be missing: NaN equals nothing. *)
Definition cell_eqb (cell : option string) (value : string) : bool :=
  match cell with
  | Some s => String.eqb s value
  | None => false
  end.

(** Lines 387-391: the value handed to [st.progress] for one course. *)
Definition course_total (videos : list Videos.row) (course_id : string)
  : nat :=
  length (filter (fun v => cell_eqb (Videos.course_id v) course_id) videos).

Definition course_done (progress : list Progress.row)
  (user_id course_id : string) : nat :=
  length (unique (map Progress.video_id
                    (filter (fun p => cell_eqb (Progress.course_id p)
                                               course_id)
                            (user_watched progress user_id)))).

Definition progress_value (videos : list Videos.row)
  (progress : list Progress.row) (user_id course_id : string) : Q :=
  let total := course_total videos course_id in
  let done := course_done progress user_id course_id in
  if 0 <? total then Z.of_nat done # Pos.of_nat total else 0%Q.

(** Every event of the progress table names a reel of the catalog, under
    the course that reel belongs to. *)
Definition progress_within_catalog (videos : list Videos.row)
  (progress : list Progress.row) : Prop :=
  Forall (fun p => exists v, In v videos /\
                             Videos.video_id v = Progress.video_id p /\
                             Videos.course_id v = Progress.course_id p)
         progress.

(** ** Properties *)

(** X21.  A user's first vote on a poll stands: a later "Submit Vote" of the
    same user on the same poll leaves the table as it is, so that a table
    with at most one vote per user and poll keeps at most one. *)
Theorem first_vote_stands (poll_votes : list Votes.row)
  (poll_id user_id choice other : string) :
  submit_vote (submit_vote poll_votes poll_id user_id choice)
              poll_id user_id other
  = submit_vote poll_votes poll_id user_id choice /\
  length (user_prev_vote (submit_vote poll_votes poll_id user_id choice)
            poll_id user_id)
  = Nat.max 1 (length (user_prev_vote poll_votes poll_id user_id)).
Proof.
  unfold submit_vote.
  destruct (user_prev_vote poll_votes poll_id user_id) as [| v vs] eqn:E.
  - assert (Ha : user_prev_vote
                   (poll_votes ++ [Votes.mk poll_id user_id choice])
                   poll_id user_id
                 = [Votes.mk poll_id user_id choice]).
    { unfold user_prev_vote in *. rewrite filter_app, E. simpl.
      now rewrite !String.eqb_refl. }
    rewrite Ha. now split.
  - rewrite E. split; [reflexivity |]. simpl. lia.
Qed.

(** X22.  Votes of other users and on other polls are never touched: a
    vote only ever adds one row at the end of the table. *)
Theorem vote_keeps_earlier_votes (poll_votes : list Votes.row)
  (poll_id user_id choice : string) :
  exists added,
    submit_vote poll_votes poll_id user_id choice = poll_votes ++ added /\
    (added = [] \/ added = [Votes.mk poll_id user_id choice]) /\
    forall poll user,
      (poll, user) <> (poll_id, user_id) ->
      user_prev_vote (submit_vote poll_votes poll_id user_id choice)
                     poll user
      = user_prev_vote poll_votes poll user.
Proof.
  unfold submit_vote.
  destruct (user_prev_vote poll_votes poll_id user_id) as [| v vs] eqn:E.
  - exists [Votes.mk poll_id user_id choice].
    split; [reflexivity |]. split; [now right |].
    intros poll user Hne. unfold user_prev_vote. rewrite filter_app. simpl.
    destruct (String.eqb poll_id poll) eqn:Ep; simpl;
      [| now rewrite app_nil_r].
    destruct (String.eqb user_id user) eqn:Eu; simpl;
      [| now rewrite app_nil_r].
    apply String.eqb_eq in Ep, Eu. subst. now destruct Hne.
  - exists []. split; [now rewrite app_nil_r |]. split; [now left |].
    reflexivity.
Qed.

(** X23.  When every watch event names a reel of the catalog under that
    reel's course, the value handed to [st.progress] lies between 0 and 1
    for every user and course. *)
Theorem progress_value_in_range (videos : list Videos.row)
  (progress : list Progress.row) (user_id course_id : string) :
  progress_within_catalog videos progress ->
  course_done progress user_id course_id <= course_total videos course_id /\
  (0 <= progress_value videos progress user_id course_id)%Q /\
  (progress_value videos progress user_id course_id <= 1)%Q.
Proof.
  intros Hw.
  assert (Hle : course_done progress user_id course_id
                <= course_total videos course_id).
  { unfold course_done, course_total.
    rewrite <- (length_map Videos.video_id
                  (filter (fun v => cell_eqb (Videos.course_id v) course_id)
                          videos)).
    apply NoDup_incl_length; [apply unique_NoDup |].
    intros id Hid. apply unique_In, in_map_iff in Hid.
    destruct Hid as [p [<- Hp]].
    apply filter_In in Hp. destruct Hp as [Hp Hc].
    apply filter_In in Hp. destruct Hp as [Hp _].
    unfold progress_within_catalog in Hw. rewrite Forall_forall in Hw.
    destruct (Hw p Hp) as [v (Hv & Hvid & Hvc)].
    apply in_map_iff. exists v. split; [exact Hvid |].
    apply filter_In. split; [exact Hv | now rewrite Hvc]. }
  split; [exact Hle |]. unfold progress_value.
  destruct (0 <? course_total videos course_id) eqn:E.
  - apply Nat.ltb_lt in E.
    assert (Hpos : Z.pos (Pos.of_nat (course_total videos course_id))
                   = Z.of_nat (course_total videos course_id)).
    { rewrite <- positive_nat_Z, Nat2Pos.id; [reflexivity | lia]. }
    unfold Qle. cbn [Qnum Qden]. rewrite Hpos. split; lia.
  - split; unfold Qle; simpl; lia.
Qed.

Lemma progress_value_in_range_witness :
  course_done
    [Progress.mk "demo_user" (Some "course_1") "video_1" 1%Z;
     Progress.mk "demo_user" (Some "course_1") "video_1" 1%Z]
    "demo_user" "course_1"
  <= course_total
       [Videos.mk "video_1" (Some "Binary Search") (Some "DSA") None None
          (Some "course_1") None None;
        Videos.mk "video_2" (Some "Heaps") (Some "DSA") None None
          (Some "course_1") None None] "course_1" /\
  (0 <= progress_value
          [Videos.mk "video_1" (Some "Binary Search") (Some "DSA") None None
             (Some "course_1") None None;
           Videos.mk "video_2" (Some "Heaps") (Some "DSA") None None
             (Some "course_1") None None]
          [Progress.mk "demo_user" (Some "course_1") "video_1" 1%Z;
           Progress.mk "demo_user" (Some "course_1") "video_1" 1%Z]
          "demo_user" "course_1")%Q /\
  (progress_value
     [Videos.mk "video_1" (Some "Binary Search") (Some "DSA") None None
        (Some "course_1") None None;
      Videos.mk "video_2" (Some "Heaps") (Some "DSA") None None
        (Some "course_1") None None]
     [Progress.mk "demo_user" (Some "course_1") "video_1" 1%Z;
      Progress.mk "demo_user" (Some "course_1") "video_1" 1%Z]
     "demo_user" "course_1" <= 1)%Q.
Proof.
  apply (progress_value_in_range
           [Videos.mk "video_1" (Some "Binary Search") (Some "DSA") None None
              (Some "course_1") None None;
            Videos.mk "video_2" (Some "Heaps") (Some "DSA") None None
              (Some "course_1") None None]
           [Progress.mk "demo_user" (Some "course_1") "video_1" 1%Z;
            Progress.mk "demo_user" (Some "course_1") "video_1" 1%Z]
           "demo_user" "course_1").
  unfold progress_within_catalog.
  repeat (constructor;
          [eexists; split; [left; reflexivity | split; reflexivity] |]).
  constructor.
Defined.

(** X24.  "Mark as Watched" on a reel of the catalog and "Upload Reel" both
    keep the progress table within the catalog; the empty tables start
    there. *)
Theorem progress_stays_within_catalog (videos : list Videos.row)
  (progress : list Progress.row) :
  progress_within_catalog videos progress ->
  (forall user_id row,
      In row videos ->
      progress_within_catalog videos (mark_watched progress user_id row)) /\
  (forall course_id title topic concept_tags level url duration videos',
      upload_reel videos course_id title topic concept_tags level url
                  duration = Some videos' ->
      progress_within_catalog videos' progress).
Proof.
  intros Hw. split.
  - intros user_id row Hrow. unfold mark_watched, progress_within_catalog.
    apply Forall_app. split; [exact Hw |].
    constructor; [| constructor]. exists row. now repeat split.
  - intros course_id title topic concept_tags level url duration videos'.
    unfold upload_reel.
    destruct (negb (truthy (strip title)) || negb (truthy (strip url)));
      [discriminate |].
    intros H. injection H as <-.
    unfold progress_within_catalog in *. rewrite Forall_forall in *.
    intros p Hp. destruct (Hw p Hp) as [v (Hv & Hid & Hc)].
    exists v. split; [apply in_or_app; now left | now split].
Qed.

Lemma progress_stays_within_catalog_witness :
  (forall user_id row,
      In row Examples.catalog ->
      progress_within_catalog Examples.catalog
        (mark_watched [] user_id row)) /\
  (forall course_id title topic concept_tags level url duration videos',
      upload_reel Examples.catalog course_id title topic concept_tags level
                  url duration = Some videos' ->
      progress_within_catalog videos' []).
Proof.
  apply (progress_stays_within_catalog Examples.catalog []).
  constructor.
Defined.

(** * The poll of an upload (app.py, lines 509-520) *)

(** ** Definitions *)

Module Polls.
(** One record of the polls table, as "Upload Reel" builds it. *)
Record row : Type := mk {
  poll_id : string;
  video_id : string;
  question : string;
  option_1 : string;
  option_2 : string;
  option_3 : string;
  option_4 : string
}.
End Polls.

(** Lines 509-520: the poll that comes with an upload, if any. *)
Definition create_poll (polls : list Polls.row) (vid_id : string)
  (add_poll : bool)
  (poll_question poll_opt1 poll_opt2 poll_opt3 poll_opt4 : string)
  : list Polls.row :=
  if add_poll && truthy poll_question
     && (truthy poll_opt1 || truthy poll_opt2)
  then
    let poll_id := ("poll_" ++ str_nat (length polls + 1))%string in
    polls ++
    [Polls.mk poll_id vid_id (strip poll_question) (strip poll_opt1)
       (strip poll_opt2)
       (if truthy poll_opt3 then strip poll_opt3 else EmptyString)
       (if truthy poll_opt4 then strip poll_opt4 else EmptyString)]
  else polls.

(** ** Properties *)

Lemma strip_or_empty (s : string) :
  (if truthy s then strip s else EmptyString) = strip s.
Proof. now destruct s. Qed.

Lemma strip_idem (s : string) : strip (strip s) = strip s.
Proof.
  destruct (strip_is_stripped s) as [Hl Hr].
  unfold strip at 1. now rewrite Hl.
Qed.

Lemma truthy_not_empty (s : string) : truthy s = true <-> s <> EmptyString.
Proof. destruct s; simpl; split; congruence. Qed.

Lemma four_cells_empty (a b c d : string) :
  Forall (fun cell => cell = EmptyString) [a; b; c; d] <->
  a = EmptyString /\ b = EmptyString /\ c = EmptyString /\ d = EmptyString.
Proof.
  split.
  - intros H. rewrite Forall_forall in H.
    repeat split; apply H; simpl; tauto.
  - intros (-> & -> & -> & ->). now repeat constructor.
Qed.

(** X25.  A poll is stored with an upload only when the box is ticked and
    the question and one of the first two options are not empty as typed.
    The cells stored are the typed texts stripped, each its own strip: a
    question typed as whitespace is stored empty, and the poll is stored
    without any option exactly when the four options typed are blank. *)
Theorem created_poll_is_stripped (polls : list Polls.row) (vid_id : string)
  (add_poll : bool)
  (poll_question poll_opt1 poll_opt2 poll_opt3 poll_opt4 : string)
  (poll_row : Polls.row) :
  create_poll polls vid_id add_poll poll_question poll_opt1 poll_opt2
              poll_opt3 poll_opt4 = polls ++ [poll_row] ->
  (add_poll = true /\ poll_question <> EmptyString /\
   (poll_opt1 <> EmptyString \/ poll_opt2 <> EmptyString)) /\
  Polls.video_id poll_row = vid_id /\
  Forall (fun cell => strip cell = cell)
         [Polls.question poll_row; Polls.option_1 poll_row;
          Polls.option_2 poll_row; Polls.option_3 poll_row;
          Polls.option_4 poll_row] /\
  (Polls.question poll_row = EmptyString <->
   is_blank poll_question = true) /\
  (Forall (fun cell => cell = EmptyString)
          [Polls.option_1 poll_row; Polls.option_2 poll_row;
           Polls.option_3 poll_row; Polls.option_4 poll_row] <->
   is_blank poll_opt1 = true /\ is_blank poll_opt2 = true /\
   is_blank poll_opt3 = true /\ is_blank poll_opt4 = true).
Proof.
  unfold create_poll.
  destruct (add_poll && truthy poll_question
            && (truthy poll_opt1 || truthy poll_opt2)) eqn:E.
  - intros H. apply app_inv_head in H. injection H as <-.
    cbn [Polls.video_id Polls.question Polls.option_1 Polls.option_2
         Polls.option_3 Polls.option_4].
    rewrite !strip_or_empty.
    apply andb_true_iff in E. destruct E as [E Ho].
    apply andb_true_iff in E. destruct E as [Ha Hq].
    apply orb_true_iff in Ho.
    split; [| split; [reflexivity | split; [| split]]].
    + split; [exact Ha |]. split; [now apply truthy_not_empty |].
      destruct Ho as [Ho | Ho]; [left | right]; now apply truthy_not_empty.
    + repeat constructor; apply strip_idem.
    + apply strip_nil.
    + rewrite four_cells_empty, !strip_nil. reflexivity.
  - intros H. exfalso. apply (f_equal (@length Polls.row)) in H.
    rewrite length_app in H. simpl in H. lia.
Qed.

Lemma created_poll_is_stripped_witness :
  (true = true /\ " " <> EmptyString /\
   (" " <> EmptyString \/ EmptyString <> EmptyString)) /\
  Polls.video_id (Polls.mk "poll_1" "video_1" "" "" "" "" "") = "video_1" /\
  Forall (fun cell => strip cell = cell)
         [Polls.question (Polls.mk "poll_1" "video_1" "" "" "" "" "");
          Polls.option_1 (Polls.mk "poll_1" "video_1" "" "" "" "" "");
          Polls.option_2 (Polls.mk "poll_1" "video_1" "" "" "" "" "");
          Polls.option_3 (Polls.mk "poll_1" "video_1" "" "" "" "" "");
          Polls.option_4 (Polls.mk "poll_1" "video_1" "" "" "" "" "")] /\
  (Polls.question (Polls.mk "poll_1" "video_1" "" "" "" "" "") = EmptyString
   <-> is_blank " " = true) /\
  (Forall (fun cell => cell = EmptyString)
          [Polls.option_1 (Polls.mk "poll_1" "video_1" "" "" "" "" "");
           Polls.option_2 (Polls.mk "poll_1" "video_1" "" "" "" "" "");
           Polls.option_3 (Polls.mk "poll_1" "video_1" "" "" "" "" "");
           Polls.option_4 (Polls.mk "poll_1" "video_1" "" "" "" "" "")] <->
   is_blank " " = true /\ is_blank "" = true /\
   is_blank "" = true /\ is_blank "" = true).
Proof.
  apply (created_poll_is_stripped [] "video_1" true " " " " "" "" ""
           (Polls.mk "poll_1" "video_1" "" "" "" "" "")).
  reflexivity.
Defined.

(** * Loading a table (app.py, lines 76-84) *)

(** ** Definitions *)

Section Tables.

(** The cells of a table, with the cell [None]. *)
Context {cell : Type} (none : cell).

(** A frame as [pd.read_csv] returns it: the column names and, for every
    row, one cell per column. *)
Record Table : Type := mkTable {
  t_columns : list string;
  t_rows : list (list cell)
}.

Definition well_formed (df : Table) : Prop :=
  Forall (fun r => length r = length (t_columns df)) (t_rows df).

(** [df[col] = None] for a new column. *)
Definition add_none_column (df : Table) (col : string) : Table :=
  mkTable (t_columns df ++ [col]) (map (fun r => r ++ [none]) (t_rows df)).

Fixpoint column_index (col : string) (cols : list string) : nat :=
  match cols with
  | [] => 0
  | c :: cols' => if String.eqb c col then 0 else S (column_index col cols')
  end.

(** The cell of a row under a column name. *)
Definition cell_of (cols : list string) (r : list cell) (col : string)
  : cell :=
  nth (column_index col cols) r none.

(** [df[columns]] for a list of names; [None] is the KeyError for a name
    the frame does not have. *)
Definition select_columns (df : Table) (columns : list string)
  : option Table :=
  if forallb (fun c => isin c (t_columns df)) columns
  then Some (mkTable columns
               (map (fun r => map (cell_of (t_columns df) r) columns)
                    (t_rows df)))
  else None.

(** Lines 79-81: the loop that adds the missing columns. *)
Definition fill_columns (df : Table) (columns : list string) : Table :=
  fold_left (fun df col => if isin col (t_columns df) then df
                           else add_none_column df col)
            columns df.

(** Lines 76-84; [file] is the frame read from the path, [None] when the
    path does not exist. *)
Definition load_or_create_csv (file : option Table) (columns : list string)
  : option Table :=
  match file with
  | Some df => select_columns (fill_columns df columns) columns
  | None => Some (mkTable columns [])
  end.

(** ** Facts *)

Lemma column_index_lt (col : string) (cols : list string) :
  In col cols -> column_index col cols < length cols.
Proof.
  induction cols as [| c cols IH]; simpl; [tauto |].
  destruct (String.eqb c col) eqn:E; [lia |].
  intros [-> | H]; [now rewrite String.eqb_refl in E |].
  apply IH in H. lia.
Qed.

Lemma column_index_ge (col : string) (cols : list string) :
  ~ In col cols -> column_index col cols = length cols.
Proof.
  induction cols as [| c cols IH]; simpl; [reflexivity |].
  intros H. destruct (String.eqb c col) eqn:E.
  - apply String.eqb_eq in E. tauto.
  - rewrite IH; [reflexivity | tauto].
Qed.

Lemma column_index_app (col : string) (cols extra : list string) :
  In col cols -> column_index col (cols ++ extra) = column_index col cols.
Proof.
  induction cols as [| c cols IH]; simpl; [tauto |].
  destruct (String.eqb c col) eqn:E; [reflexivity |].
  intros [-> | H]; [now rewrite String.eqb_refl in E |].
  now rewrite IH.
Qed.

Lemma column_index_app_ge (col : string) (cols extra : list string) :
  ~ In col cols -> length cols <= column_index col (cols ++ extra).
Proof.
  induction cols as [| c cols IH]; simpl; [lia |].
  intros H. destruct (String.eqb c col) eqn:E.
  - apply String.eqb_eq in E. tauto.
  - assert (Hn : ~ In col cols) by tauto. apply IH in Hn. lia.
Qed.

Lemma nth_padding (r : list cell) (k n : nat) :
  length r <= n -> nth n (r ++ repeat none k) none = none.
Proof.
  intros H. rewrite app_nth2 by lia.
  destruct (Nat.lt_ge_cases (n - length r) k) as [Hlt | Hge].
  - now apply nth_repeat_lt.
  - apply nth_overflow. now rewrite repeat_length.
Qed.

(** What the loop leaves: the columns of the file, then the missing ones,
    each row padded with [None]. *)
Lemma fill_columns_shape (columns : list string) (df : Table) :
  exists extra,
    t_columns (fill_columns df columns) = t_columns df ++ extra /\
    t_rows (fill_columns df columns)
    = map (fun r => r ++ repeat none (length extra)) (t_rows df) /\
    (forall c, In c columns -> In c (t_columns df ++ extra)).
Proof.
  unfold fill_columns. revert df.
  induction columns as [| col columns IH]; intros df; simpl.
  - exists []. rewrite app_nil_r. split; [reflexivity |].
    split; [| intros c []].
    rewrite <- (map_id (t_rows df)) at 1. apply map_ext.
    intros r. simpl. now rewrite app_nil_r.
  - destruct (isin col (t_columns df)) eqn:E.
    + destruct (IH df) as (extra & Hc & Hr & Hin).
      exists extra. split; [exact Hc |]. split; [exact Hr |].
      intros c [<- | H]; [| now apply Hin].
      apply in_or_app. left. now apply isin_In.
    + destruct (IH (add_none_column df col)) as (extra & Hc & Hr & Hin).
      exists (col :: extra). simpl in Hc, Hr, Hin.
      rewrite <- app_assoc in Hc, Hin. simpl in Hc, Hin.
      split; [exact Hc |]. split.
      * rewrite Hr, map_map. apply map_ext. intros r.
        now rewrite <- app_assoc.
      * intros c [<- | H]; [| now apply Hin].
        apply in_or_app. right. now left.
Qed.

End Tables.

Arguments Table cell : clear implicits.

(** The six tables of [load_data] (lines 86-119). *)
Definition PROGRESS_COLUMNS : list string :=
  ["user_id"; "course_id"; "video_id"; "watched"].

(** ** Properties *)

(** X26.  Whatever the file holds, [load_or_create_csv] returns (it never
    fails on a missing column) a table with exactly the columns asked for,
    in the order asked for, and with as many rows as the file.  In each row
    a column that the file has keeps its cell, and a column that the file
    lacks holds None.  Without a file the table has the columns and no
    row. *)
Theorem load_or_create_csv_columns {cell : Type} (none : cell)
  (df : Table cell) (columns : list string) :
  well_formed df ->
  load_or_create_csv none (Some df) columns
  = Some (mkTable columns
            (map (fun r =>
                    map (fun c => if isin c (t_columns df)
                                  then cell_of none (t_columns df) r c
                                  else none) columns)
                 (t_rows df))) /\
  load_or_create_csv none None columns = Some (mkTable columns []).
Proof.
  intros Hwf. split; [| reflexivity].
  unfold load_or_create_csv, select_columns.
  destruct (fill_columns_shape none columns df) as (extra & Hc & Hr & Hin).
  assert (Hall : forallb (fun c => isin c (t_columns (fill_columns none df
                                                        columns)))
                         columns = true).
  { apply forallb_forall. intros c Hcin. apply isin_In.
    rewrite Hc. now apply Hin. }
  rewrite Hall, Hc, Hr, map_map. do 2 f_equal.
  unfold well_formed in Hwf. rewrite Forall_forall in Hwf.
  apply map_ext_in. intros r Hr'. apply map_ext. intros c.
  unfold cell_of.
  destruct (isin c (t_columns df)) eqn:E.
  - apply isin_In in E. rewrite column_index_app by exact E.
    apply app_nth1. rewrite (Hwf r Hr'). now apply column_index_lt.
  - apply isin_false in E. apply nth_padding.
    rewrite (Hwf r Hr'). now apply column_index_app_ge.
Qed.

Lemma load_or_create_csv_columns_witness :
  load_or_create_csv PyNone
    (Some (mkTable ["video_id"; "note"; "user_id"]
             [[PyStr "video_1"; PyStr "x"; PyStr "demo_user"]]))
    PROGRESS_COLUMNS
  = Some (mkTable PROGRESS_COLUMNS
            (map (fun r =>
                    map (fun c => if isin c ["video_id"; "note"; "user_id"]
                                  then cell_of PyNone
                                         ["video_id"; "note"; "user_id"] r c
                                  else PyNone) PROGRESS_COLUMNS)
                 [[PyStr "video_1"; PyStr "x"; PyStr "demo_user"]])) /\
  load_or_create_csv PyNone None PROGRESS_COLUMNS
  = Some (mkTable PROGRESS_COLUMNS []).
Proof.
  apply (load_or_create_csv_columns PyNone
           (mkTable ["video_id"; "note"; "user_id"]
              [[PyStr "video_1"; PyStr "x"; PyStr "demo_user"]])
           PROGRESS_COLUMNS).
  repeat constructor.
Defined.

Example load_progress_sample :
  load_or_create_csv PyNone
    (Some (mkTable ["video_id"; "note"; "user_id"]
             [[PyStr "video_1"; PyStr "x"; PyStr "demo_user"]]))
    PROGRESS_COLUMNS
  = Some (mkTable PROGRESS_COLUMNS
            [[PyStr "demo_user"; PyNone; PyStr "video_1"; PyNone]]).
Proof. reflexivity. Qed.
